(** * deep_sort_realtime: the single-target [Track] of [deep_sort/track.py]

    A shallow embedding of [TrackState] and [Track]: the life-cycle
    mutators [predict], [update] and [mark_missed], the geometry queries
    [to_ltwh], [to_ltrb], [to_center] and the kinematic queries
    [get_velocity] and [get_trajectory_slope].

    Numpy arrays are modelled twice.  The value model treats an array of
    known shape as a tuple of scalars and is what the life-cycle and the
    returned boxes are stated on.  The buffer model further down keeps the
    arrays in a store of buffers with views, copies and in-place writes, and
    is what the absence of side effects of the geometry queries is stated
    on; two refinement theorems tie the models together. *)

From stdpp Require Import base option list.
From Stdlib Require Import ZArith Bool Lia PrimFloat.
From Stdlib Require Uint63 QArith Qcanon.

Local Open Scope Z_scope.
Set Warnings "-inexact-float".

(** ** TrackState (track.py, lines 5-17) *)

Inductive TrackState : Type := Tentative | Confirmed | Deleted.

#[global] Instance TrackState_eq_dec : EqDecision TrackState.
Proof. solve_decision. Defined.

(** The integer each enumeration member stands for in the source. *)
Definition TrackState_value (s : TrackState) : Z :=
  match s with
  | Tentative => 1
  | Confirmed => 2
  | Deleted => 3
  end.

(** [a == b] on two states is the comparison of their integers. *)
Definition state_eqb (a b : TrackState) : bool :=
  TrackState_value a =? TrackState_value b.

(** ** Exceptions and the method monad *)

Inductive exn : Type := AttributeError | IndexError | ValueError.

Inductive result (X : Type) : Type :=
| Ok (x : X)
| Raise (e : exn).
Arguments Ok {X} x.
Arguments Raise {X} e.

(** A method body: it reads and writes the state [S] it runs on (the object
    [self], or the store of array buffers) and either returns or raises.
    A raised exception keeps the writes made before it. *)
Definition M (S X : Type) : Type := S -> result X * S.

Definition ret {S X : Type} (x : X) : M S X := fun s => (Ok x, s).

Definition bind {S X Y : Type} (m : M S X) (k : X -> M S Y) : M S Y :=
  fun s =>
    match m s with
    | (Ok x, s') => k x s'
    | (Raise e, s') => (Raise e, s')
    end.

Definition raise {S X : Type} (e : exn) : M S X := fun s => (Raise e, s).

(** [self.f] and [self.f = v]. *)
Definition get {S X : Type} (f : S -> X) : M S X := fun s => (Ok (f s), s).
Definition modify {S : Type} (f : S -> S) : M S unit := fun s => (Ok tt, f s).

(** A call that cannot write: its result, the state untouched. *)
Definition call {S X : Type} (f : S -> result X) : M S X := fun s => (f s, s).

(** The object after the call, and what the call returned. *)
Definition exec {S X : Type} (m : M S X) (s : S) : S := snd (m s).
Definition returned {S X : Type} (m : M S X) (s : S) : result X := fst (m s).

Declare Scope py_scope.
Delimit Scope py_scope with py.
Notation "x <- m ;; k" := (bind m (fun x => k))
  (at level 100, m at next level, k at level 200, right associativity) : py_scope.
Notation "m ;; k" := (bind m (fun _ => k))
  (at level 100, k at level 200, right associativity) : py_scope.

(** ** Arrays of known shape, as values *)

(** A one-dimensional array of four scalars: a box [(l, t, w, h)] or
    [(l, t, r, b)], or the [(x, y, a, h)] part of a filter mean. *)
Record arr4 (A : Type) : Type := Arr4 { i0 : A; i1 : A; i2 : A; i3 : A }.
Arguments Arr4 {A} _ _ _ _.
Arguments i0 {A} _.
Arguments i1 {A} _.
Arguments i2 {A} _.
Arguments i3 {A} _.

(** A point [(x, y)]: the two-element array [ret[:2]]. *)
Abbreviation arr2 A := (A * A)%type.

(** The filter mean, an array of eight scalars: [(x, y, a, h)] followed by
    the four velocities.  [mean[:4]] is [head4]. *)
Record arr8 (A : Type) : Type := Arr8 { head4 : arr4 A; tail4 : arr4 A }.
Arguments Arr8 {A} _ _.
Arguments head4 {A} _.
Arguments tail4 {A} _.

(** ** The collaborators of a track *)

Module kalman_filter.
(** Modelled from the spec: the motion filter (module [kalman_filter] is
    not among the sources), the pure pair
    [predict(mean, covariance) -> (mean, covariance)] and
    [update(mean, covariance, measurement_xyah) -> (mean, covariance)]. *)
Record KalmanFilter (A Cov : Type) : Type := {
  predict : arr8 A -> Cov -> arr8 A * Cov;
  update : arr8 A -> Cov -> arr4 A -> arr8 A * Cov
}.
Arguments predict {A Cov} _ _ _.
Arguments update {A Cov} _ _ _ _.
End kalman_filter.

Module detection.
(** Modelled from the spec: the detection object (class [Detection] is not
    among the sources), by what [Track.update] reads of it: the raw box
    [get_ltwh()], the measurement [to_xyah()], and the attributes
    [feature], [confidence], [class_name], [instance_mask], [others], each
    of which may be [None]. *)
Record Detection (A Feature Cls Conf Mask Other : Type) : Type := {
  get_ltwh : arr4 A;
  to_xyah : arr4 A;
  feature : option Feature;
  confidence : option Conf;
  class_name : option Cls;
  instance_mask : option Mask;
  others : option Other
}.
Arguments get_ltwh {A Feature Cls Conf Mask Other} _.
Arguments to_xyah {A Feature Cls Conf Mask Other} _.
Arguments feature {A Feature Cls Conf Mask Other} _.
Arguments confidence {A Feature Cls Conf Mask Other} _.
Arguments class_name {A Feature Cls Conf Mask Other} _.
Arguments instance_mask {A Feature Cls Conf Mask Other} _.
Arguments others {A Feature Cls Conf Mask Other} _.
End detection.

(** ** Scalars

    The element type [A] of the arrays is left open; what the source needs
    of it is numpy's element-wise arithmetic, one class per ufunc, and the
    conversion of the literals of the source into [A]. *)

Class Add (A : Type) := np_add : A -> A -> A.
Class Subtract (A : Type) := np_subtract : A -> A -> A.
Class Multiply (A : Type) := np_multiply : A -> A -> A.
Class TrueDivide (A : Type) := np_true_divide : A -> A -> A.
Class FloorDivide (A : Type) := np_floor_divide : A -> A -> A.
Class Sqrt (A : Type) := np_sqrt : A -> A.
(** An integer literal ([2], or a count) and a float literal ([1e-07])
    as scalars of the array's type. *)
Class OfInt (A : Type) := of_int : Z -> A.
Class OfFloat (A : Type) := of_float : float -> A.
(** [np.mean] of an array, all its elements taken together.  It is
    numpy's function, and the order in which numpy adds the elements up
    depends on their type and their number, so it is left to the element
    type as the ufuncs are. *)
Class Mean (A : Type) := np_mean : list A -> A.
#[global] Hint Mode Add ! : typeclass_instances.
#[global] Hint Mode Subtract ! : typeclass_instances.
#[global] Hint Mode Multiply ! : typeclass_instances.
#[global] Hint Mode TrueDivide ! : typeclass_instances.
#[global] Hint Mode FloorDivide ! : typeclass_instances.
#[global] Hint Mode Sqrt ! : typeclass_instances.
#[global] Hint Mode OfInt ! : typeclass_instances.
#[global] Hint Mode OfFloat ! : typeclass_instances.
#[global] Hint Mode Mean ! : typeclass_instances.

Notation "a .+ b" := (np_add a b) (at level 50, left associativity) : py_scope.
Notation "a .- b" := (np_subtract a b) (at level 50, left associativity) : py_scope.
Notation "a .* b" := (np_multiply a b) (at level 40, left associativity) : py_scope.
Notation "a ./ b" := (np_true_divide a b) (at level 40, left associativity) : py_scope.
Notation "a .// b" := (np_floor_divide a b) (at level 40, left associativity) : py_scope.

Local Open Scope py_scope.

(** ** Track (track.py, lines 20-341): the value model *)

Section Track.
Context {A Cov Feature Cls Conf Mask Other Id : Type}.
Context `{!Add A, !Subtract A, !Multiply A, !TrueDivide A,
          !FloorDivide A, !Sqrt A, !Mean A, !OfInt A, !OfFloat A}.

(** The attributes of a track object, in the order [__init__] assigns
    them.  [features] holds what was appended, [None] entries included. *)
Record Track : Type := {
  mean : arr8 A;
  covariance : Cov;
  track_id : Id;
  hits : Z;
  age : Z;
  time_since_update : Z;
  state : TrackState;
  features : list (option Feature);
  latest_feature : option Feature;
  _n_init : Z;
  _max_age : Z;
  original_ltwh : option (arr4 A);
  det_class : option Cls;
  det_conf : option Conf;
  instance_mask : option Mask;
  others : option Other;
  trajectory : list (arr2 A)
}.

(** *** Attribute assignment [self.f = v], one setter per assigned field *)

Definition set_mean (v : arr8 A) (t : Track) : Track :=
  {| mean := v; covariance := covariance t; track_id := track_id t;
     hits := hits t; age := age t;
     time_since_update := time_since_update t; state := state t;
     features := features t; latest_feature := latest_feature t;
     _n_init := _n_init t; _max_age := _max_age t;
     original_ltwh := original_ltwh t; det_class := det_class t;
     det_conf := det_conf t; instance_mask := instance_mask t;
     others := others t; trajectory := trajectory t |}.

Definition set_covariance (v : Cov) (t : Track) : Track :=
  {| mean := mean t; covariance := v; track_id := track_id t;
     hits := hits t; age := age t;
     time_since_update := time_since_update t; state := state t;
     features := features t; latest_feature := latest_feature t;
     _n_init := _n_init t; _max_age := _max_age t;
     original_ltwh := original_ltwh t; det_class := det_class t;
     det_conf := det_conf t; instance_mask := instance_mask t;
     others := others t; trajectory := trajectory t |}.

Definition set_hits (v : Z) (t : Track) : Track :=
  {| mean := mean t; covariance := covariance t; track_id := track_id t;
     hits := v; age := age t;
     time_since_update := time_since_update t; state := state t;
     features := features t; latest_feature := latest_feature t;
     _n_init := _n_init t; _max_age := _max_age t;
     original_ltwh := original_ltwh t; det_class := det_class t;
     det_conf := det_conf t; instance_mask := instance_mask t;
     others := others t; trajectory := trajectory t |}.

Definition set_age (v : Z) (t : Track) : Track :=
  {| mean := mean t; covariance := covariance t; track_id := track_id t;
     hits := hits t; age := v;
     time_since_update := time_since_update t; state := state t;
     features := features t; latest_feature := latest_feature t;
     _n_init := _n_init t; _max_age := _max_age t;
     original_ltwh := original_ltwh t; det_class := det_class t;
     det_conf := det_conf t; instance_mask := instance_mask t;
     others := others t; trajectory := trajectory t |}.

Definition set_time_since_update (v : Z) (t : Track) : Track :=
  {| mean := mean t; covariance := covariance t; track_id := track_id t;
     hits := hits t; age := age t;
     time_since_update := v; state := state t;
     features := features t; latest_feature := latest_feature t;
     _n_init := _n_init t; _max_age := _max_age t;
     original_ltwh := original_ltwh t; det_class := det_class t;
     det_conf := det_conf t; instance_mask := instance_mask t;
     others := others t; trajectory := trajectory t |}.

Definition set_state (v : TrackState) (t : Track) : Track :=
  {| mean := mean t; covariance := covariance t; track_id := track_id t;
     hits := hits t; age := age t;
     time_since_update := time_since_update t; state := v;
     features := features t; latest_feature := latest_feature t;
     _n_init := _n_init t; _max_age := _max_age t;
     original_ltwh := original_ltwh t; det_class := det_class t;
     det_conf := det_conf t; instance_mask := instance_mask t;
     others := others t; trajectory := trajectory t |}.

Definition set_features (v : list (option Feature)) (t : Track) : Track :=
  {| mean := mean t; covariance := covariance t; track_id := track_id t;
     hits := hits t; age := age t;
     time_since_update := time_since_update t; state := state t;
     features := v; latest_feature := latest_feature t;
     _n_init := _n_init t; _max_age := _max_age t;
     original_ltwh := original_ltwh t; det_class := det_class t;
     det_conf := det_conf t; instance_mask := instance_mask t;
     others := others t; trajectory := trajectory t |}.

Definition set_latest_feature (v : option Feature) (t : Track) : Track :=
  {| mean := mean t; covariance := covariance t; track_id := track_id t;
     hits := hits t; age := age t;
     time_since_update := time_since_update t; state := state t;
     features := features t; latest_feature := v;
     _n_init := _n_init t; _max_age := _max_age t;
     original_ltwh := original_ltwh t; det_class := det_class t;
     det_conf := det_conf t; instance_mask := instance_mask t;
     others := others t; trajectory := trajectory t |}.

Definition set_original_ltwh (v : option (arr4 A)) (t : Track) : Track :=
  {| mean := mean t; covariance := covariance t; track_id := track_id t;
     hits := hits t; age := age t;
     time_since_update := time_since_update t; state := state t;
     features := features t; latest_feature := latest_feature t;
     _n_init := _n_init t; _max_age := _max_age t;
     original_ltwh := v; det_class := det_class t;
     det_conf := det_conf t; instance_mask := instance_mask t;
     others := others t; trajectory := trajectory t |}.

Definition set_det_class (v : option Cls) (t : Track) : Track :=
  {| mean := mean t; covariance := covariance t; track_id := track_id t;
     hits := hits t; age := age t;
     time_since_update := time_since_update t; state := state t;
     features := features t; latest_feature := latest_feature t;
     _n_init := _n_init t; _max_age := _max_age t;
     original_ltwh := original_ltwh t; det_class := v;
     det_conf := det_conf t; instance_mask := instance_mask t;
     others := others t; trajectory := trajectory t |}.

Definition set_det_conf (v : option Conf) (t : Track) : Track :=
  {| mean := mean t; covariance := covariance t; track_id := track_id t;
     hits := hits t; age := age t;
     time_since_update := time_since_update t; state := state t;
     features := features t; latest_feature := latest_feature t;
     _n_init := _n_init t; _max_age := _max_age t;
     original_ltwh := original_ltwh t; det_class := det_class t;
     det_conf := v; instance_mask := instance_mask t;
     others := others t; trajectory := trajectory t |}.

Definition set_instance_mask (v : option Mask) (t : Track) : Track :=
  {| mean := mean t; covariance := covariance t; track_id := track_id t;
     hits := hits t; age := age t;
     time_since_update := time_since_update t; state := state t;
     features := features t; latest_feature := latest_feature t;
     _n_init := _n_init t; _max_age := _max_age t;
     original_ltwh := original_ltwh t; det_class := det_class t;
     det_conf := det_conf t; instance_mask := v;
     others := others t; trajectory := trajectory t |}.

Definition set_others (v : option Other) (t : Track) : Track :=
  {| mean := mean t; covariance := covariance t; track_id := track_id t;
     hits := hits t; age := age t;
     time_since_update := time_since_update t; state := state t;
     features := features t; latest_feature := latest_feature t;
     _n_init := _n_init t; _max_age := _max_age t;
     original_ltwh := original_ltwh t; det_class := det_class t;
     det_conf := det_conf t; instance_mask := instance_mask t;
     others := v; trajectory := trajectory t |}.

Definition set_trajectory (v : list (arr2 A)) (t : Track) : Track :=
  {| mean := mean t; covariance := covariance t; track_id := track_id t;
     hits := hits t; age := age t;
     time_since_update := time_since_update t; state := state t;
     features := features t; latest_feature := latest_feature t;
     _n_init := _n_init t; _max_age := _max_age t;
     original_ltwh := original_ltwh t; det_class := det_class t;
     det_conf := det_conf t; instance_mask := instance_mask t;
     others := others t; trajectory := v |}.

(** *** Slices of a four-element array and element-wise arithmetic *)

(** [ret[:2]] and [ret[2:]] read, and assigned to. *)
Definition lo2 (r : arr4 A) : arr2 A := (i0 r, i1 r).
Definition hi2 (r : arr4 A) : arr2 A := (i2 r, i3 r).
Definition set_lo2 (p : arr2 A) (r : arr4 A) : arr4 A :=
  Arr4 (fst p) (snd p) (i2 r) (i3 r).
Definition set_hi2 (p : arr2 A) (r : arr4 A) : arr4 A :=
  Arr4 (i0 r) (i1 r) (fst p) (snd p).
(** [ret[2] = v]. *)
Definition set_i2 (v : A) (r : arr4 A) : arr4 A := Arr4 (i0 r) (i1 r) v (i3 r).

(** An operator on two arrays of the same shape, and on an array and a
    scalar. *)
Definition arr2_map2 (f : A -> A -> A) (p q : arr2 A) : arr2 A :=
  (f (fst p) (fst q), f (snd p) (snd q)).
Definition arr2_scalar (f : A -> A -> A) (p : arr2 A) (c : A) : arr2 A :=
  (f (fst p) c, f (snd p) c).

(** *** __init__ (lines 77-118) and to_center (lines 120-123) *)

Definition to_center (self : Track) : result (arr2 A) :=
  match original_ltwh self with
  | None => Raise AttributeError
  | Some box =>
      let ret := box in
      let ret :=
        set_lo2 (arr2_map2 np_add (lo2 ret)
                   (arr2_scalar np_floor_divide (hi2 ret) (of_int 2))) ret in
      Ok (lo2 ret)
  end.

Definition __init__ (mean_ : arr8 A) (covariance_ : Cov) (track_id_ : Id)
    (n_init max_age : Z) (feature : option Feature)
    (original_ltwh_ : option (arr4 A)) (det_class_ : option Cls)
    (det_conf_ : option Conf) (instance_mask_ : option Mask)
    (others_ : option Other) : result unit * Track :=
  let self :=
    {| mean := mean_; covariance := covariance_; track_id := track_id_;
       hits := 1; age := 1; time_since_update := 0;
       state := Tentative;
       features := match feature with Some f => [Some f] | None => [] end;
       latest_feature := match feature with Some f => Some f | None => None end;
       _n_init := n_init; _max_age := max_age;
       original_ltwh := original_ltwh_; det_class := det_class_;
       det_conf := det_conf_; instance_mask := instance_mask_;
       others := others_;
       trajectory := [] |} in
  (match original_ltwh_ with
   | Some _ =>
       c <- call to_center ;;
       tr <- get trajectory ;;
       modify (set_trajectory (tr ++ [c]))
   | None => ret tt
   end) self.

(** The object [Track(mean, covariance, track_id, n_init, max_age)]
    builds, every optional argument left at its default [None]. *)
Definition Track_defaults (mean_ : arr8 A) (covariance_ : Cov) (track_id_ : Id)
    (n_init max_age : Z) : Track :=
  {| mean := mean_; covariance := covariance_; track_id := track_id_;
     hits := 1; age := 1; time_since_update := 0;
     state := Tentative; features := []; latest_feature := None;
     _n_init := n_init; _max_age := max_age;
     original_ltwh := None; det_class := None; det_conf := None;
     instance_mask := None; others := None; trajectory := [] |}.

(** *** to_ltwh, to_tlwh (lines 125-166) *)

Definition to_ltwh (self : Track) (orig orig_strict : bool) : option (arr4 A) :=
  let kalman :=
    let ret := head4 (mean self) in
    let ret := set_i2 (i2 ret .* i3 ret) ret in
    let ret :=
      set_lo2 (arr2_map2 np_subtract (lo2 ret)
                 (arr2_scalar np_true_divide (hi2 ret) (of_int 2))) ret in
    Some ret in
  if orig then
    match original_ltwh self with
    | None => if orig_strict then None else kalman
    | Some box => Some box
    end
  else kalman.

Definition to_tlwh (self : Track) (orig orig_strict : bool) : option (arr4 A) :=
  to_ltwh self orig orig_strict.

(** *** to_ltrb, to_tlbr (lines 168-198) *)

Definition to_ltrb (self : Track) (orig orig_strict : bool) : option (arr4 A) :=
  let ret := to_ltwh self orig orig_strict in
  match ret with
  | Some ret => Some (set_hi2 (arr2_map2 np_add (lo2 ret) (hi2 ret)) ret)
  | None => None
  end.

Definition to_tlbr (self : Track) (orig orig_strict : bool) : option (arr4 A) :=
  to_ltrb self orig orig_strict.

(** *** The plain getters (lines 200-234) *)

Definition get_det_conf (self : Track) : option Conf := det_conf self.
Definition get_det_class (self : Track) : option Cls := det_class self.
Definition get_instance_mask (self : Track) : option Mask := instance_mask self.
Definition get_det_supplementary (self : Track) : option Other := others self.
Definition get_feature (self : Track) : option Feature := latest_feature self.
Definition get_trajectory (self : Track) : list (arr2 A) := trajectory self.

(** *** get_velocity (lines 236-254) *)

(** The default of the keyword argument [fps]. *)
Definition fps_default : A := of_int 5.

Definition get_velocity (self : Track) (fps : A)
    : option A * option (list A) * option (list (arr2 A)) :=
  if Z.of_nat (length (trajectory self)) <? 2 then (None, None, None)
  else
    let trajectory_array := trajectory self in
    let velocity :=
      map (fun d => arr2_scalar np_multiply d fps)
          (zip_with (arr2_map2 np_subtract)
             (tail trajectory_array) (removelast trajectory_array)) in
    let velocity_magnitude :=
      map (fun v => np_sqrt (fst v .* fst v .+ snd v .* snd v)) velocity in
    let velocity_direction :=
      zip_with (fun v m => arr2_scalar np_true_divide v (m .+ of_float 1e-8%float))
        velocity velocity_magnitude in
    let average_velocity := np_mean velocity_magnitude in
    (Some average_velocity, Some velocity_magnitude, Some velocity_direction).

(** *** get_trajectory_slope (lines 256-274) *)

Definition get_trajectory_slope (self : Track) : result (option A) :=
  if Z.of_nat (length (trajectory self)) <? 2 then Ok None
  else
    let trajectory_array := trajectory self in
    match trajectory_array !! 0%nat, last trajectory_array with
    | Some first, Some final =>
        let diff_y := snd final .- snd first in
        let diff_x := fst final .- fst first .+ of_float 1e-07%float in
        let slope := diff_y ./ diff_x in
        Ok (Some slope)
    | _, _ => Raise IndexError
    end.

(** *** predict (lines 276-292) *)

Definition predict (kf : kalman_filter.KalmanFilter A Cov) : M Track unit :=
  m <- get mean ;;
  c <- get covariance ;;
  let r := kalman_filter.predict kf m c in
  modify (set_mean (fst r)) ;;
  modify (set_covariance (snd r)) ;;
  a <- get age ;;
  modify (set_age (a + 1)) ;;
  u <- get time_since_update ;;
  modify (set_time_since_update (u + 1)) ;;
  modify (set_original_ltwh None) ;;
  modify (set_det_conf None) ;;
  modify (set_instance_mask None) ;;
  modify (set_others None).

(** *** update (lines 294-322) *)

Definition update (kf : kalman_filter.KalmanFilter A Cov)
    (d : detection.Detection A Feature Cls Conf Mask Other) : M Track unit :=
  modify (set_original_ltwh (Some (detection.get_ltwh d))) ;;
  m <- get mean ;;
  c <- get covariance ;;
  let r := kalman_filter.update kf m c (detection.to_xyah d) in
  modify (set_mean (fst r)) ;;
  modify (set_covariance (snd r)) ;;
  fs <- get features ;;
  modify (set_features (fs ++ [detection.feature d])) ;;
  modify (set_latest_feature (detection.feature d)) ;;
  modify (set_det_conf (detection.confidence d)) ;;
  modify (set_det_class (detection.class_name d)) ;;
  modify (set_instance_mask (detection.instance_mask d)) ;;
  modify (set_others (detection.others d)) ;;
  p <- call to_center ;;
  tr <- get trajectory ;;
  modify (set_trajectory (tr ++ [p])) ;;
  h <- get hits ;;
  modify (set_hits (h + 1)) ;;
  modify (set_time_since_update 0) ;;
  s <- get state ;;
  h <- get hits ;;
  n <- get _n_init ;;
  if state_eqb s Tentative && (h >=? n) then modify (set_state Confirmed)
  else ret tt.

(** *** mark_missed (lines 324-329) *)

Definition mark_missed : M Track unit :=
  s <- get state ;;
  if state_eqb s Tentative then modify (set_state Deleted)
  else
    u <- get time_since_update ;;
    a <- get _max_age ;;
    if u >? a then modify (set_state Deleted) else ret tt.

(** *** is_tentative, is_confirmed, is_deleted (lines 331-341) *)

Definition is_tentative (self : Track) : bool := state_eqb (state self) Tentative.
Definition is_confirmed (self : Track) : bool := state_eqb (state self) Confirmed.
Definition is_deleted (self : Track) : bool := state_eqb (state self) Deleted.

(** *** Call sequences

    What the owning tracker does to one track: a finite sequence of calls
    of the three mutators, each on the object the previous one left. *)

Inductive Call : Type :=
| Predict (kf : kalman_filter.KalmanFilter A Cov)
| Update (kf : kalman_filter.KalmanFilter A Cov)
         (d : detection.Detection A Feature Cls Conf Mask Other)
| MarkMissed.

Definition do (c : Call) : M Track unit :=
  match c with
  | Predict kf => predict kf
  | Update kf d => update kf d
  | MarkMissed => mark_missed
  end.

Definition run (cs : list Call) (t : Track) : Track :=
  fold_left (fun t c => exec (do c) t) cs t.

(** The call moves a track that was not confirmed into [Confirmed]. *)
Definition confirms (c : Call) (t : Track) : Prop :=
  state t <> Confirmed /\ state (exec (do c) t) = Confirmed.

(** The call is an [update] whose incremented [hits] has reached the
    confirmation threshold. *)
Definition reaches_n_init (c : Call) (t : Track) : Prop :=
  (exists kf d, c = Update kf d) /\ _n_init t <= hits (exec (do c) t).

(** The conversion of a corner box back to width/height form, by
    subtracting the top-left corner from the bottom-right one.  The source
    has no such function: it is the inverse the round trip of a box
    through [to_ltrb] is measured against. *)
Definition ltrb_to_ltwh (r : arr4 A) : arr4 A :=
  set_hi2 (arr2_map2 np_subtract (hi2 r) (lo2 r)) r.

End Track.

Arguments Track : clear implicits.
Arguments Call : clear implicits.

(** ** Histories

    What a history of calls is made of: which calls are [predict]s,
    [update]s and misses, and how many of each there are. *)

Section Histories.
Context {A Cov Feature Cls Conf Mask Other : Type}.

Local Abbreviation Call := (Call A Cov Feature Cls Conf Mask Other).

Definition is_predict (c : Call) : bool :=
  match c with Predict _ => true | _ => false end.
Definition is_update (c : Call) : bool :=
  match c with Update _ _ => true | _ => false end.
Definition is_mark_missed (c : Call) : bool :=
  match c with MarkMissed => true | _ => false end.

(** The number of calls of a history that satisfy [p]. *)
Definition count (p : Call -> bool) (cs : list Call) : Z :=
  Z.of_nat (length (List.filter p cs)).

(** A history with no [update] in it, and one with no miss in it. *)
Definition idle (cs : list Call) : Prop :=
  Forall (fun c => is_update c = false) cs.
Definition unmissed (cs : list Call) : Prop :=
  Forall (fun c => is_mark_missed c = false) cs.

End Histories.

(** ** The geometry queries on array buffers

    A numpy array is a view of a buffer: slicing makes another view of the
    same buffer, [copy()] and arithmetic make a new buffer, and the in-place
    operators and slice assignment write through a view.  The store lists
    the buffers in the order they were allocated. *)

Module buffers.
Section Buffers.
Context {A : Type}.
Context `{!Add A, !Subtract A, !Multiply A, !TrueDivide A,
          !FloorDivide A, !OfInt A}.

(** The store: the buffers allocated so far, oldest first. *)
Local Abbreviation store := (list (list A)).

(** A one-dimensional array: [size] elements from [offset] on in the
    buffer at index [base] of the store. *)
Record ndarray : Type := { base : nat; offset : nat; size : nat }.

(** The elements a view shows.  The source only ever holds views that lie
    within an allocated buffer. *)
Definition elements (v : ndarray) (h : store) : list A :=
  take (size v) (drop (offset v) (default [] (h !! base v))).

Definition load (v : ndarray) : M store (list A) :=
  fun h => (Ok (elements v h), h).

(** A new buffer holding [data]. *)
Definition alloc (data : list A) : M store ndarray :=
  fun h => (Ok {| base := length h; offset := 0; size := length data |},
            h ++ [data]).

(** Overwrite what the view shows with [data]. *)
Definition write (v : ndarray) (data : list A) : M store unit :=
  fun h =>
    (Ok tt,
     alter (fun b => take (offset v) b ++ data
                       ++ drop (offset v + length data) b) (base v) h).

(** [v[:n]] and [v[n:]] for a literal [n >= 0]. *)
Definition slice_to (v : ndarray) (n : nat) : ndarray :=
  {| base := base v; offset := offset v; size := Nat.min n (size v) |}.
Definition slice_from (v : ndarray) (n : nat) : ndarray :=
  {| base := base v; offset := (offset v + Nat.min n (size v))%nat;
     size := (size v - Nat.min n (size v))%nat |}.

(** [v.copy()]. *)
Definition copy (v : ndarray) : M store ndarray :=
  data <- load v ;; alloc data.

(** [v[i]] and [v[i] = x] for a literal [i >= 0]. *)
Definition getitem (v : ndarray) (i : nat) : M store A :=
  data <- load v ;;
  match data !! i with
  | Some x => ret x
  | None => raise IndexError
  end.
Definition setitem (v : ndarray) (i : nat) (x : A) : M store unit :=
  data <- load v ;;
  if decide (i < length data)%nat then write v (<[i := x]> data)
  else raise IndexError.

(** Broadcasting of two one-dimensional operands: equal lengths pair up,
    a single element is repeated, anything else is a [ValueError]. *)
Definition broadcast (f : A -> A -> A) (xs ys : list A) : result (list A) :=
  if decide (length xs = length ys) then Ok (zip_with f xs ys)
  else match xs, ys with
       | [x], _ => Ok (map (f x) ys)
       | _, [y] => Ok (map (fun x => f x y) xs)
       | _, _ => Raise ValueError
       end.

(** The same where the result must have the shape of the left operand:
    the in-place operators and slice assignment. *)
Definition broadcast_into (f : A -> A -> A) (xs ys : list A) : result (list A) :=
  if decide (length xs = length ys) then Ok (zip_with f xs ys)
  else match ys with
       | [y] => Ok (map (fun x => f x y) xs)
       | _ => Raise ValueError
       end.

(** [v op c] for a scalar [c] and [v op w]: a new array. *)
Definition scalar_op (f : A -> A -> A) (v : ndarray) (c : A) : M store ndarray :=
  data <- load v ;; alloc (map (fun x => f x c) data).
Definition binop (f : A -> A -> A) (v w : ndarray) : M store ndarray :=
  xs <- load v ;;
  ys <- load w ;;
  match broadcast f xs ys with
  | Ok zs => alloc zs
  | Raise e => raise e
  end.

(** [v op= w] and [v[...] = w]: written through [v]. *)
Definition inplace (f : A -> A -> A) (v w : ndarray) : M store unit :=
  xs <- load v ;;
  ys <- load w ;;
  match broadcast_into f xs ys with
  | Ok zs => write v zs
  | Raise e => raise e
  end.
Definition assign (v w : ndarray) : M store unit :=
  inplace (fun _ y => y) v w.

(** The two array attributes of a track object, as references. *)
Record Track : Type := {
  mean : ndarray;
  original_ltwh : option ndarray
}.

(** to_center (lines 120-123) *)
Definition to_center (self : Track) : M store ndarray :=
  match original_ltwh self with
  | None => raise AttributeError
  | Some box =>
      r <- copy box ;;
      half <- scalar_op np_floor_divide (slice_from r 2) (of_int 2) ;;
      inplace np_add (slice_to r 2) half ;;
      ret (slice_to r 2)
  end.

(** to_ltwh, to_tlwh (lines 125-166) *)
Definition to_ltwh (self : Track) (orig orig_strict : bool)
    : M store (option ndarray) :=
  let kalman :=
    r <- copy (slice_to (mean self) 4) ;;
    a <- getitem r 2 ;;
    b <- getitem r 3 ;;
    setitem r 2 (a .* b) ;;
    half <- scalar_op np_true_divide (slice_from r 2) (of_int 2) ;;
    inplace np_subtract (slice_to r 2) half ;;
    ret (Some r) in
  if orig then
    match original_ltwh self with
    | None => if orig_strict then ret None else kalman
    | Some box => r <- copy box ;; ret (Some r)
    end
  else kalman.

Definition to_tlwh (self : Track) (orig orig_strict : bool)
    : M store (option ndarray) :=
  to_ltwh self orig orig_strict.

(** to_ltrb, to_tlbr (lines 168-198) *)
Definition to_ltrb (self : Track) (orig orig_strict : bool)
    : M store (option ndarray) :=
  r <- to_ltwh self orig orig_strict ;;
  match r with
  | Some a =>
      corner <- binop np_add (slice_to a 2) (slice_from a 2) ;;
      assign (slice_from a 2) corner ;;
      ret (Some a)
  | None => ret None
  end.

Definition to_tlbr (self : Track) (orig orig_strict : bool)
    : M store (option ndarray) :=
  to_ltrb self orig orig_strict.

(** Every buffer of [h] is still there in [h'], with the same contents. *)
Definition unchanged (h h' : store) : Prop :=
  forall i b, h !! i = Some b -> h' !! i = Some b.

(** The array lives in a buffer that [h] does not have. *)
Definition fresh (h : store) (a : ndarray) : Prop := h !! base a = None.

(** A query that reads only: run on any store it leaves every buffer of
    that store unchanged, and the array it returns, if any, is in a buffer
    the store did not have. *)
Definition reads_only {X : Type} (m : M store X)
    (array_of : X -> option ndarray) : Prop :=
  forall h,
    unchanged h (exec m h)
    /\ (forall x a, returned m h = Ok x -> array_of x = Some a -> fresh h a).

(** The invariant of a query started in [h0]: the store is [h0] followed
    by the buffers allocated since, and a value returned satisfies [Q]. *)
Definition keeps {X : Type} (h0 : store) (m : M store X) (Q : X -> Prop) : Prop :=
  forall h, (exists ext, h = h0 ++ ext) ->
    (exists ext, snd (m h) = h0 ++ ext)
    /\ match fst (m h) with Ok x => Q x | Raise _ => True end.

(** The array lives in a buffer allocated after [h0]. *)
Definition later (h0 : store) (v : ndarray) : Prop := (length h0 <= base v)%nat.

(** What a view shows of the buffers [news] allocated after some store,
    addressed from the end of that store; and the array that is the whole
    of the first buffer allocated after [h]. *)
Definition shown (news : store) (k off sz : nat) : list A :=
  take sz (drop off (default [] (news !! k))).
Definition at_end (h : store) (sz : nat) : ndarray :=
  {| base := length h + 0; offset := 0; size := sz |}.

End Buffers.
End buffers.

(** ** The two models side by side *)

Section Represents.
Context {A Cov Feature Cls Conf Mask Other Id : Type}.

(** The elements of an array of known shape, in index order. *)
Definition list2 (p : arr2 A) : list A := [fst p; snd p].
Definition list4 (b : arr4 A) : list A := [i0 b; i1 b; i2 b; i3 b].
Definition list8 (m : arr8 A) : list A := list4 (head4 m) ++ list4 (tail4 m).

(** The store [h] holds the arrays of the track [t] where the references
    of [self] point. *)
Definition represents (h : list (list A)) (self : buffers.Track)
    (t : Track A Cov Feature Cls Conf Mask Other Id) : Prop :=
  buffers.size (buffers.mean self) = 8%nat
  /\ buffers.elements (buffers.mean self) h = list8 (mean t)
  /\ match buffers.original_ltwh self, original_ltwh t with
     | Some v, Some b =>
         buffers.size v = 4%nat /\ buffers.elements v h = list4 b
     | None, None => True
     | _, _ => False
     end.

End Represents.

(** ** Three element types

    [float64], the type of the filter mean, with the arithmetic of IEEE 754
    binary64; [int64], the type numpy gives an array of Python integers, on
    which [//] is floor division and every result is taken modulo [2^64];
    and the exact rationals, the elements of an object array of Python
    fractions. *)

Module float64.
#[export] Instance add : Add float := PrimFloat.add.
#[export] Instance subtract : Subtract float := PrimFloat.sub.
#[export] Instance multiply : Multiply float := PrimFloat.mul.
#[export] Instance true_divide : TrueDivide float := PrimFloat.div.
#[export] Instance sqrt : Sqrt float := PrimFloat.sqrt.
#[export] Instance of_float : OfFloat float := fun x => x.
(** An integer literal of the source as a float. *)
#[export] Instance of_int : OfInt float := fun z =>
  match z with
  | Z0 => 0%float
  | Zpos p => PrimFloat.of_uint63 (Uint63.of_pos p)
  | Zneg p => PrimFloat.opp (PrimFloat.of_uint63 (Uint63.of_pos p))
  end.

(** The sum numpy takes of a contiguous float64 array is not the sum from
    left to right.  Fewer than eight elements are added one after the
    other, starting from negative zero, which leaves every float as it is.
    Up to 128 elements go into eight running sums, the [k]-th over the
    elements at [k], [k + 8], [k + 16], ... as long as a whole block of
    eight remains; the eight sums are added in pairs, and the elements
    after the last whole block are added on one after the other.  A longer
    array is cut in two, the first part a multiple of eight long, and the
    sums of the two parts are added. *)
Fixpoint unrolled (r0 r1 r2 r3 r4 r5 r6 r7 : float) (a : list float) : float :=
  match a with
  | a0 :: a1 :: a2 :: a3 :: a4 :: a5 :: a6 :: a7 :: a' =>
      unrolled (r0 + a0) (r1 + a1) (r2 + a2) (r3 + a3)
               (r4 + a4) (r5 + a5) (r6 + a6) (r7 + a7) a'
  | _ =>
      fold_left PrimFloat.add a
        (((r0 + r1) + (r2 + r3)) + ((r4 + r5) + (r6 + r7)))
  end%float.

(** [fuel] bounds the number of cuts; the length of the array is more than
    enough, and without fuel the result is not a number. *)
Fixpoint pairwise_sum (fuel : nat) (a : list float) : float :=
  match a with
  | a0 :: a1 :: a2 :: a3 :: a4 :: a5 :: a6 :: a7 :: a' =>
      let n := length a in
      if (n <=? 128)%nat then unrolled a0 a1 a2 a3 a4 a5 a6 a7 a'
      else
        match fuel with
        | S fuel =>
            let n2 := (n / 2 - (n / 2) mod 8)%nat in
            (pairwise_sum fuel (take n2 a) + pairwise_sum fuel (drop n2 a))%float
        | O => PrimFloat.nan
        end
  | _ => fold_left PrimFloat.add a PrimFloat.neg_zero
  end.

(** [np.mean]: the sum divided by the number of elements; of no elements
    it is not a number. *)
#[export] Instance mean : Mean float := fun a =>
  (pairwise_sum (length a) a / of_int (Z.of_nat (length a)))%float.
End float64.

Module integer.
(** The int64 that is congruent to [z] modulo [2^64]. *)
Definition wrap (z : Z) : Z := (z + 2 ^ 63) mod 2 ^ 64 - 2 ^ 63.

(** The ufuncs on int64 do not raise on overflow: the result wraps
    around.  [//] rounds towards minus infinity, and is 0 when the divisor
    is 0.  The integer literals of the source are small and stand for
    themselves. *)
#[export] Instance add : Add Z := fun a b => wrap (a + b).
#[export] Instance subtract : Subtract Z := fun a b => wrap (a - b).
#[export] Instance multiply : Multiply Z := fun a b => wrap (a * b).
#[export] Instance floor_divide : FloorDivide Z := fun a b => wrap (a / b).
#[export] Instance of_int : OfInt Z := fun z => z.
End integer.

Module rational.
(** The arithmetic of fractions is exact.  The source only ever divides
    by the literal [2]; by zero Python raises, and the quotient here is 0. *)
#[export] Instance add : Add Qcanon.Qc := Qcanon.Qcplus.
#[export] Instance subtract : Subtract Qcanon.Qc := Qcanon.Qcminus.
#[export] Instance multiply : Multiply Qcanon.Qc := Qcanon.Qcmult.
#[export] Instance true_divide : TrueDivide Qcanon.Qc := Qcanon.Qcdiv.
#[export] Instance of_int : OfInt Qcanon.Qc := fun z =>
  Qcanon.Q2Qc (QArith_base.inject_Z z).
End rational.

(** ** Sample objects *)

Module sample.
Import float64 integer rational.

(** A filter that leaves the belief as it is. *)
Definition still {A : Type} : kalman_filter.KalmanFilter A unit :=
  {| kalman_filter.predict := fun m c => (m, c);
     kalman_filter.update := fun m c _ => (m, c) |}.

(** Tracks over float64: features are float vectors, the class is a
    label number, the confidence a float. *)
Abbreviation FTrack := (Track float unit (list float) nat float unit unit Z).

Definition zero4 : arr4 float := Arr4 0%float 0%float 0%float 0%float.

(** A new track with mean [(0.2, 0.2, 1, 0.2)] and no original box. *)
Definition t_filter : FTrack :=
  Track_defaults (Arr8 (Arr4 0.2%float 0.2%float 1%float 0.2%float) zero4)
    tt 1 3 2.

(** The same track holding the original box [(0.1, 0.1, 0.2, 0.2)], whose
    centre [(0.1, 0.1)] is on the trajectory. *)
Definition t_box : FTrack :=
  set_trajectory [(0.1%float, 0.1%float)]
    (set_original_ltwh
       (Some (Arr4 0.1%float 0.1%float 0.2%float 0.2%float)) t_filter).

(** The same track holding the original box [(1, 2, 3, 4)]. *)
Definition t_whole : FTrack :=
  set_trajectory [(2%float, 4%float)]
    (set_original_ltwh (Some (Arr4 1%float 2%float 3%float 4%float)) t_filter).

(** A track that has been at [(0, 0)], [(1, 0)] and [(2, 0)]. *)
Definition t_three : FTrack :=
  set_trajectory [(0%float, 0%float); (1%float, 0%float); (2%float, 0%float)]
    t_filter.

(** Tracks over the fractions: [fraction n d] is [Fraction(n, d)]. *)
Abbreviation QTrack :=
  (Track Qcanon.Qc unit (list Qcanon.Qc) nat Qcanon.Qc unit unit Z).

Definition fraction (n : Z) (d : positive) : Qcanon.Qc :=
  Qcanon.Q2Qc (QArith_base.Qmake n d).

(** A new track with mean [(1/5, 1/5, 1, 1/5)] and no original box, and
    the same track holding the original box [(1/10, 1/10, 1/5, 1/5)]. *)
Definition q_filter : QTrack :=
  Track_defaults
    (Arr8 (Arr4 (fraction 1 5) (fraction 1 5) (fraction 1 1) (fraction 1 5))
          (Arr4 (fraction 0 1) (fraction 0 1) (fraction 0 1) (fraction 0 1)))
    tt 1 3 2.

Definition q_box : QTrack :=
  set_trajectory [(fraction 1 10, fraction 1 10)]
    (set_original_ltwh
       (Some (Arr4 (fraction 1 10) (fraction 1 10) (fraction 1 5) (fraction 1 5)))
       q_filter).

(** Tracks over the integers. *)
Abbreviation ZTrack := (Track Z unit (list Z) nat Z unit unit Z).
Abbreviation ZDetection := (detection.Detection Z (list Z) nat Z unit unit).

Definition zmean : arr8 Z := Arr8 (Arr4 12 23 1 7) (Arr4 0 0 0 0).

(** [Track(mean, cov, 1, 3, 2, feature=[1, 2, 3],
    original_ltwh=[10, 20, 5, 7])]. *)
Definition t_seen : ZTrack :=
  snd (__init__ zmean tt 1 3 2 (Some [1; 2; 3]) (Some (Arr4 10 20 5 7))
         None None None None).

(** A detection with a feature vector and one without. *)
Definition d_feature : ZDetection :=
  {| detection.get_ltwh := Arr4 11 20 5 7;
     detection.to_xyah := Arr4 13 23 1 7;
     detection.feature := Some [4; 5; 6];
     detection.confidence := Some 1;
     detection.class_name := Some 0%nat;
     detection.instance_mask := None;
     detection.others := None |}.

Definition d_nofeature : ZDetection :=
  {| detection.get_ltwh := Arr4 11 20 5 7;
     detection.to_xyah := Arr4 13 23 1 7;
     detection.feature := None;
     detection.confidence := Some 1;
     detection.class_name := Some 0%nat;
     detection.instance_mask := None;
     detection.others := None |}.

(** A store with a filter mean in buffer 0 and the original box
    [(1, 2, 3, 4)] in buffer 1, and the track object that refers to them. *)
Definition h_two : list (list float) :=
  [[0.2; 0.2; 1; 0.2; 0; 0; 0; 0]; [1; 2; 3; 4]]%float.

Definition self_two : buffers.Track :=
  {| buffers.mean := {| buffers.base := 0; buffers.offset := 0; buffers.size := 8 |};
     buffers.original_ltwh :=
       Some {| buffers.base := 1; buffers.offset := 0; buffers.size := 4 |} |}.

(** A store of integers with a mean in buffer 0 and the box
    [(10, 20, 5, 7)] in buffer 1, for the same references; and a store whose
    only array has three elements. *)
Definition h_int : list (list Z) :=
  [[12; 23; 1; 7; 0; 0; 0; 0]; [10; 20; 5; 7]].

Definition h_short : list (list float) := [[0.2; 0.2; 1]%float].

Definition self_short : buffers.Track :=
  {| buffers.mean := {| buffers.base := 0; buffers.offset := 0; buffers.size := 3 |};
     buffers.original_ltwh := None |}.

End sample.

(** * Properties of the life cycle *)

Section Lifecycle.
Context {A Cov Feature Cls Conf Mask Other Id : Type}.
Context `{!Add A, !FloorDivide A, !OfInt A}.

Local Abbreviation Track := (Track A Cov Feature Cls Conf Mask Other Id).
Local Abbreviation Call := (Call A Cov Feature Cls Conf Mask Other).
Implicit Types (t : Track) (c : Call) (cs : list Call).
Implicit Types (kf : kalman_filter.KalmanFilter A Cov).
Implicit Types (d : detection.Detection A Feature Cls Conf Mask Other).

(** The object each mutator leaves, field by field. *)

Lemma predict_exec kf t :
  predict kf t =
  (Ok tt,
   {| mean := fst (kalman_filter.predict kf (mean t) (covariance t));
      covariance := snd (kalman_filter.predict kf (mean t) (covariance t));
      track_id := track_id t; hits := hits t; age := age t + 1;
      time_since_update := time_since_update t + 1; state := state t;
      features := features t; latest_feature := latest_feature t;
      _n_init := _n_init t; _max_age := _max_age t;
      original_ltwh := None; det_class := det_class t;
      det_conf := None; instance_mask := None; others := None;
      trajectory := trajectory t |}).
Proof. reflexivity. Qed.

Lemma update_exec kf d t :
  update kf d t =
  (Ok tt,
   {| mean := fst (kalman_filter.update kf (mean t) (covariance t)
                     (detection.to_xyah d));
      covariance := snd (kalman_filter.update kf (mean t) (covariance t)
                           (detection.to_xyah d));
      track_id := track_id t; hits := hits t + 1; age := age t;
      time_since_update := 0;
      state := if state_eqb (state t) Tentative && (hits t + 1 >=? _n_init t)
               then Confirmed else state t;
      features := features t ++ [detection.feature d];
      latest_feature := detection.feature d;
      _n_init := _n_init t; _max_age := _max_age t;
      original_ltwh := Some (detection.get_ltwh d);
      det_class := detection.class_name d;
      det_conf := detection.confidence d;
      instance_mask := detection.instance_mask d;
      others := detection.others d;
      trajectory :=
        trajectory t ++
          [(i0 (detection.get_ltwh d)
              .+ (i2 (detection.get_ltwh d) .// of_int 2),
            i1 (detection.get_ltwh d)
              .+ (i3 (detection.get_ltwh d) .// of_int 2))] |}).
Proof.
  unfold update, bind, get, modify, call, ret, to_center. cbn.
  destruct (state_eqb (state t) Tentative && (hits t + 1 >=? _n_init t));
    reflexivity.
Qed.

Lemma mark_missed_exec t :
  mark_missed t =
  (Ok tt,
   set_state
     (if state_eqb (state t) Tentative then Deleted
      else if time_since_update t >? _max_age t then Deleted else state t)
     t).
Proof.
  unfold mark_missed, bind, get, modify, ret. cbn.
  destruct (state_eqb (state t) Tentative); [reflexivity|].
  destruct (time_since_update t >? _max_age t); [reflexivity|].
  destruct t; reflexivity.
Qed.

Lemma to_center_value t :
  to_center t =
  match original_ltwh t with
  | None => Raise AttributeError
  | Some box =>
      Ok (i0 box .+ (i2 box .// of_int 2), i1 box .+ (i3 box .// of_int 2))
  end.
Proof. unfold to_center. destruct (original_ltwh t); reflexivity. Qed.

Lemma init_defaults (mean_ : arr8 A) (covariance_ : Cov) (track_id_ : Id)
    (n_init max_age : Z) :
  __init__ mean_ covariance_ track_id_ n_init max_age
    None None None None None None
  = (Ok tt,
     Track_defaults (Feature:=Feature) (Cls:=Cls) (Conf:=Conf) (Mask:=Mask)
       (Other:=Other) mean_ covariance_ track_id_ n_init max_age).
Proof. reflexivity. Qed.

Lemma state_eqb_eq (a b : TrackState) : state_eqb a b = true <-> a = b.
Proof. destruct a, b; cbn; split; congruence. Qed.

(** One call never lowers the state, and never touches the thresholds. *)
Lemma do_state_le c t :
  TrackState_value (state t) <= TrackState_value (state (exec (do c) t)).
Proof.
  unfold exec. destruct c as [kf|kf d|]; cbn [do].
  - rewrite predict_exec. cbn. lia.
  - rewrite update_exec. cbn.
    destruct (state t); cbn; try lia.
    destruct (hits t + 1 >=? _n_init t); cbn; lia.
  - rewrite mark_missed_exec. cbn.
    destruct (state t); cbn; try lia;
      destruct (time_since_update t >? _max_age t); cbn; lia.
Qed.

Lemma do_n_init c t : _n_init (exec (do c) t) = _n_init t.
Proof.
  unfold exec. destruct c as [kf|kf d|]; cbn [do].
  - rewrite predict_exec. reflexivity.
  - rewrite update_exec. reflexivity.
  - rewrite mark_missed_exec. reflexivity.
Qed.

Lemma run_app cs1 cs2 t : run (cs1 ++ cs2) t = run cs2 (run cs1 t).
Proof. unfold run. apply fold_left_app. Qed.

Lemma run_cons c cs t : run (c :: cs) t = run cs (exec (do c) t).
Proof. reflexivity. Qed.

Lemma run_state_le cs t :
  TrackState_value (state t) <= TrackState_value (state (run cs t)).
Proof.
  revert t. induction cs as [|c cs IH]; intros t; cbn.
  - lia.
  - specialize (IH (exec (do c) t)). pose proof (do_state_le c t).
    unfold run in IH. lia.
Qed.

Lemma run_n_init cs t : _n_init (run cs t) = _n_init t.
Proof.
  revert t. induction cs as [|c cs IH]; intros t; cbn; [reflexivity|].
  unfold run in IH. rewrite IH. apply do_n_init.
Qed.

Lemma do_returns c t : returned (do c) t = Ok tt.
Proof.
  unfold returned. destruct c as [kf|kf d|]; cbn [do].
  - rewrite predict_exec. reflexivity.
  - rewrite update_exec. reflexivity.
  - rewrite mark_missed_exec. reflexivity.
Qed.

(** C1.  Along any sequence of [predict], [update] and [mark_missed]
    calls the state only moves forward in the order Tentative,
    Confirmed, Deleted: the state after a longer run is never before the
    state after a shorter one, and once it is [Deleted] every further
    call leaves it [Deleted]. *)
Theorem state_monotone_deleted_absorbing cs1 cs2 t :
  TrackState_value (state (run cs1 t))
    <= TrackState_value (state (run (cs1 ++ cs2) t))
  /\ (state (run cs1 t) = Deleted -> state (run (cs1 ++ cs2) t) = Deleted).
Proof.
  rewrite run_app. pose proof (run_state_le cs2 (run cs1 t)) as Hle.
  split; [exact Hle|]. intros Hd. rewrite Hd in Hle.
  destruct (state (run cs2 (run cs1 t))); cbn in Hle; (reflexivity || lia).
Qed.

(** A call confirms a track exactly when it is an [update] of a
    tentative track whose incremented [hits] has reached [_n_init]. *)
Lemma confirms_iff c t :
  confirms c t <-> state t = Tentative /\ reaches_n_init c t.
Proof.
  unfold confirms, reaches_n_init, exec.
  destruct c as [kf|kf d|]; cbn [do].
  - rewrite predict_exec. cbn. split.
    + intros [Hn Hc]. contradiction.
    + intros [_ [(kf' & d' & He) _]]. discriminate He.
  - rewrite update_exec. cbn. split.
    + intros [Hn Hc]. destruct (state t) eqn:Hs; cbn in Hc; try congruence.
      destruct (Z.geb_spec (hits t + 1) (_n_init t)) as [Hge|Hlt];
        cbn in Hc; [|discriminate Hc].
      split; [reflexivity|]. split; [eauto|lia].
    + intros [Hs [_ Hle]]. rewrite Hs. cbn. split; [discriminate|].
      destruct (Z.geb_spec (hits t + 1) (_n_init t)); [reflexivity|lia].
  - rewrite mark_missed_exec. cbn. split.
    + intros [Hn Hc]. destruct (state t); cbn in Hc; try congruence.
      destruct (time_since_update t >? _max_age t); congruence.
    + intros [_ [(kf' & d' & He) _]]. discriminate He.
Qed.

Lemma tentative_value (s : TrackState) :
  TrackState_value s <= 1 -> s = Tentative.
Proof. destruct s; cbn; intros; (reflexivity || lia). Qed.

(** While a track is tentative, no earlier call was an [update] whose
    [hits] had reached the threshold. *)
Lemma tentative_never_reached cs t0 cs1 c1 cs2 :
  state (run cs t0) = Tentative ->
  cs = cs1 ++ c1 :: cs2 ->
  ~ reaches_n_init c1 (run cs1 t0).
Proof.
  intros Hs -> Hr.
  rewrite run_app, run_cons in Hs.
  pose proof (run_state_le cs2 (exec (do c1) (run cs1 t0))) as H2.
  rewrite Hs in H2. cbn in H2.
  pose proof (do_state_le c1 (run cs1 t0)) as H1.
  assert (Hb : state (run cs1 t0) = Tentative)
    by (apply tentative_value; lia).
  assert (Hc : confirms c1 (run cs1 t0))
    by (apply confirms_iff; split; assumption).
  destruct Hc as [_ Hc]. rewrite Hc in H2. cbn in H2. lia.
Qed.

(** A track that started tentative and is confirmed was confirmed by an
    [update] whose [hits] had reached the threshold. *)
Lemma confirmed_once_reached cs t0 :
  state t0 = Tentative ->
  state (run cs t0) = Confirmed ->
  exists cs1 c1 cs2, cs = cs1 ++ c1 :: cs2 /\ reaches_n_init c1 (run cs1 t0).
Proof.
  intros H0. induction cs as [|c cs IH] using rev_ind; intros Hc.
  - cbn in Hc. congruence.
  - rewrite run_app in Hc. cbn in Hc.
    destruct (decide (state (run cs t0) = Confirmed)) as [Hp|Hp].
    + destruct (IH Hp) as (cs1 & c1 & cs2 & -> & Hr).
      exists cs1, c1, (cs2 ++ [c]). split; [|exact Hr].
      rewrite <- app_assoc. reflexivity.
    + exists cs, c, []. split; [reflexivity|].
      apply (confirms_iff c (run cs t0)). split; assumption.
Qed.

(** C2, as amended.  Take a newly constructed track and any history [cs]
    of calls on it.  The next call [c] moves the track into [Confirmed] if
    and only if the track has not been deleted and [c] is the first
    [update] call whose incremented [hits] has reached [_n_init] (is at
    least [_n_init]): no call before it was such an [update], so the
    transition happens on no earlier call. *)
Theorem confirmed_exactly_when_hits_reach_n_init
    (mean_ : arr8 A) (covariance_ : Cov) (track_id_ : Id) (n_init max_age : Z)
    (feature : option Feature) (original_ltwh_ : option (arr4 A))
    (det_class_ : option Cls) (det_conf_ : option Conf)
    (instance_mask_ : option Mask) (others_ : option Other) cs c :
  let t0 := snd (__init__ mean_ covariance_ track_id_ n_init max_age feature
                   original_ltwh_ det_class_ det_conf_ instance_mask_ others_) in
  confirms c (run cs t0) <->
    state (run cs t0) <> Deleted
    /\ reaches_n_init c (run cs t0)
    /\ (forall cs1 c1 cs2,
          cs = cs1 ++ c1 :: cs2 -> ~ reaches_n_init c1 (run cs1 t0)).
Proof.
  intros t0.
  assert (H0 : state t0 = Tentative)
    by (unfold t0, __init__; destruct original_ltwh_; reflexivity).
  rewrite confirms_iff. split.
  - intros [Hs Hr]. split; [congruence|]. split; [exact Hr|].
    intros cs1 c1 cs2 Hcs. eapply tentative_never_reached; eassumption.
  - intros (Hd & Hr & Hfirst). split; [|exact Hr].
    destruct (state (run cs t0)) eqn:Hs; [reflexivity| |congruence].
    destruct (confirmed_once_reached cs t0 H0 Hs) as (cs1 & c1 & cs2 & Hcs & Hr1).
    exfalso. exact (Hfirst cs1 c1 cs2 Hcs Hr1).
Qed.

(** C3.  [mark_missed] returns normally; on a tentative track it sets the
    state to [Deleted] whatever the age; on a confirmed track it sets the
    state to [Deleted] if and only if [time_since_update > _max_age] and
    otherwise leaves it [Confirmed]; and the object it leaves differs from
    the one it was called on in the state at most. *)
Theorem mark_missed_effect t :
  returned mark_missed t = Ok tt
  /\ (state t = Tentative -> state (exec mark_missed t) = Deleted)
  /\ (state t = Confirmed ->
        (state (exec mark_missed t) = Deleted
           <-> time_since_update t > _max_age t)
        /\ (~ time_since_update t > _max_age t ->
              state (exec mark_missed t) = Confirmed))
  /\ exec mark_missed t = set_state (state (exec mark_missed t)) t.
Proof.
  unfold returned, exec. rewrite mark_missed_exec. cbn.
  split; [reflexivity|]. split; [|split].
  - intros ->. reflexivity.
  - intros ->. cbn.
    destruct (Z.gtb_spec (time_since_update t) (_max_age t)) as [Hgt|Hle].
    + split; [split; [lia|reflexivity]|lia].
    + split; [split; [discriminate|lia]|reflexivity].
  - reflexivity.
Qed.

(** C4, as amended.  When the detection carries no feature vector,
    [update] still appends to [features]: the absent entry is appended, so
    the sequence grows by one element, [latest_feature] becomes absent,
    and [hits] is incremented. *)
Theorem update_appends_absent_feature kf d t :
  detection.feature d = None ->
  features (exec (update kf d) t) = features t ++ [None]
  /\ length (features (exec (update kf d) t)) = S (length (features t))
  /\ latest_feature (exec (update kf d) t) = None
  /\ hits (exec (update kf d) t) = hits t + 1.
Proof.
  intros Hf. unfold exec. rewrite update_exec. cbn. rewrite Hf.
  repeat split. rewrite length_app. cbn. lia.
Qed.

(** C5.  [predict] returns normally, increments [age] and
    [time_since_update] by one each, clears [original_ltwh], [det_conf],
    [instance_mask] and [others], and leaves [state], [hits], [features],
    [trajectory] and [det_class] as they were. *)
Theorem predict_effect kf t :
  returned (predict kf) t = Ok tt
  /\ age (exec (predict kf) t) = age t + 1
  /\ time_since_update (exec (predict kf) t) = time_since_update t + 1
  /\ original_ltwh (exec (predict kf) t) = None
  /\ det_conf (exec (predict kf) t) = None
  /\ instance_mask (exec (predict kf) t) = None
  /\ others (exec (predict kf) t) = None
  /\ state (exec (predict kf) t) = state t
  /\ hits (exec (predict kf) t) = hits t
  /\ features (exec (predict kf) t) = features t
  /\ trajectory (exec (predict kf) t) = trajectory t
  /\ det_class (exec (predict kf) t) = det_class t.
Proof.
  unfold returned, exec. rewrite predict_exec. cbn. repeat split.
Qed.

(** C10.  [__init__] returns normally.  Given an original box it leaves a
    trajectory of exactly one point, the top-left corner plus the
    floor-divided half of the width and of the height; given none it
    leaves the trajectory empty. *)
Theorem init_trajectory
    (mean_ : arr8 A) (covariance_ : Cov) (track_id_ : Id) (n_init max_age : Z)
    (feature : option Feature) (det_class_ : option Cls)
    (det_conf_ : option Conf) (instance_mask_ : option Mask)
    (others_ : option Other) :
  (forall box : arr4 A,
     fst (__init__ mean_ covariance_ track_id_ n_init max_age feature
            (Some box) det_class_ det_conf_ instance_mask_ others_) = Ok tt
     /\ trajectory
          (snd (__init__ mean_ covariance_ track_id_ n_init max_age feature
                  (Some box) det_class_ det_conf_ instance_mask_ others_))
        = [(i0 box .+ (i2 box .// of_int 2), i1 box .+ (i3 box .// of_int 2))])
  /\ fst (__init__ mean_ covariance_ track_id_ n_init max_age feature
            None det_class_ det_conf_ instance_mask_ others_) = Ok tt
  /\ trajectory
       (snd (__init__ mean_ covariance_ track_id_ n_init max_age feature
               None det_class_ det_conf_ instance_mask_ others_)) = [].
Proof. split; [intros box; split; reflexivity|split; reflexivity]. Qed.

End Lifecycle.

(** * Properties of the geometry and kinematic queries *)

Section Geometry.
Context {A Cov Feature Cls Conf Mask Other Id : Type}.
Context `{!Add A, !Subtract A, !Multiply A, !TrueDivide A,
          !Sqrt A, !Mean A, !OfInt A, !OfFloat A}.

Local Abbreviation Track := (Track A Cov Feature Cls Conf Mask Other Id).
Implicit Types (t : Track) (b : arr4 A).

(** The corner form of a width/height box. *)
Lemma to_ltrb_of_to_ltwh t (orig orig_strict : bool) :
  to_ltrb t orig orig_strict =
  (fun b => Arr4 (i0 b) (i1 b) (i0 b .+ i2 b) (i1 b .+ i3 b))
    <$> to_ltwh t orig orig_strict.
Proof. unfold to_ltrb. destruct (to_ltwh t orig orig_strict); reflexivity. Qed.

(** The box derived from the filter mean, and how [orig] and
    [orig_strict] choose between it, the original box and [None]. *)
Lemma to_ltwh_filter t :
  to_ltwh t false false =
  Some (Arr4 (i0 (head4 (mean t))
                .- (i2 (head4 (mean t)) .* i3 (head4 (mean t))) ./ of_int 2)
             (i1 (head4 (mean t)) .- i3 (head4 (mean t)) ./ of_int 2)
             (i2 (head4 (mean t)) .* i3 (head4 (mean t)))
             (i3 (head4 (mean t)))).
Proof. reflexivity. Qed.

Lemma to_ltwh_cases t (orig orig_strict : bool) :
  to_ltwh t orig orig_strict =
  if orig then
    match original_ltwh t with
    | None => if orig_strict then None else to_ltwh t false false
    | Some box => Some box
    end
  else to_ltwh t false false.
Proof. destruct orig; reflexivity. Qed.

(** C6.  When [original_ltwh] is absent, [to_ltwh(orig=True,
    orig_strict=True)] returns [None] and not the filter-derived box;
    [to_ltwh(orig=True, orig_strict=False)] returns the box derived from
    the filter mean [(x, y, a, h)]: width [a * h], height [h], top-left
    [(x - (a * h) / 2, y - h / 2)]; and [to_ltrb] follows [to_ltwh] for
    every [orig] and [orig_strict]: it is [None] exactly when [to_ltwh]
    is, and otherwise the corner form of the same box. *)
Theorem to_ltwh_orig_strict t :
  let x := i0 (head4 (mean t)) in
  let y := i1 (head4 (mean t)) in
  let a := i2 (head4 (mean t)) in
  let h := i3 (head4 (mean t)) in
  original_ltwh t = None ->
  to_ltwh t true true = None
  /\ to_ltwh t true false =
       Some (Arr4 (x .- (a .* h) ./ of_int 2) (y .- h ./ of_int 2) (a .* h) h)
  /\ to_ltrb t true true = None
  /\ to_ltrb t true false =
       Some (Arr4 (x .- (a .* h) ./ of_int 2) (y .- h ./ of_int 2)
               ((x .- (a .* h) ./ of_int 2) .+ a .* h)
               ((y .- h ./ of_int 2) .+ h))
  /\ (forall orig orig_strict : bool,
        to_ltrb t orig orig_strict =
        (fun b => Arr4 (i0 b) (i1 b) (i0 b .+ i2 b) (i1 b .+ i3 b))
          <$> to_ltwh t orig orig_strict)
  /\ (forall orig orig_strict : bool,
        to_ltrb t orig orig_strict = None
        <-> to_ltwh t orig orig_strict = None).
Proof.
  intros x y a h Hnone.
  assert (Hstrict : to_ltwh t true true = None)
    by (unfold to_ltwh; rewrite Hnone; reflexivity).
  assert (Hloose : to_ltwh t true false =
            Some (Arr4 (x .- (a .* h) ./ of_int 2) (y .- h ./ of_int 2)
                    (a .* h) h))
    by (unfold to_ltwh; rewrite Hnone; reflexivity).
  split; [exact Hstrict|]. split; [exact Hloose|].
  split; [rewrite to_ltrb_of_to_ltwh, Hstrict; reflexivity|].
  split; [rewrite to_ltrb_of_to_ltwh, Hloose; reflexivity|].
  split; [intros; apply to_ltrb_of_to_ltwh|].
  intros orig orig_strict. rewrite to_ltrb_of_to_ltwh.
  destruct (to_ltwh t orig orig_strict); cbn; split; congruence.
Qed.

Lemma get_trajectory_slope_ends t (first final : arr2 A) :
  (2 <= length (trajectory t))%nat ->
  trajectory t !! 0%nat = Some first ->
  last (trajectory t) = Some final ->
  get_trajectory_slope t =
    Ok (Some ((snd final .- snd first)
                ./ (fst final .- fst first .+ of_float 1e-07%float))).
Proof.
  intros Hge Hfirst Hlast. unfold get_trajectory_slope.
  destruct (Z.ltb_spec (Z.of_nat (length (trajectory t))) 2); [lia|].
  cbv zeta. rewrite Hfirst, Hlast. reflexivity.
Qed.

(** C7.  With fewer than two trajectory points [get_trajectory_slope]
    returns [None] and [get_velocity] returns three [None]s.  With two or
    more, [get_trajectory_slope] returns
    [(last_y - first_y) / (last_x - first_x + 1e-07)] for the first and
    the last point of the trajectory, whatever lies between them. *)
Theorem kinematics_by_trajectory_length t (fps : A) :
  ((length (trajectory t) < 2)%nat ->
     get_trajectory_slope t = Ok None
     /\ get_velocity t fps = (None, None, None))
  /\ ((2 <= length (trajectory t))%nat ->
        exists first final,
          trajectory t !! 0%nat = Some first
          /\ last (trajectory t) = Some final
          /\ get_trajectory_slope t =
               Ok (Some ((snd final .- snd first)
                           ./ (fst final .- fst first
                                 .+ of_float 1e-07%float))))
  /\ (forall (first final : arr2 A) (between : list (arr2 A)),
        trajectory t = first :: between ++ [final] ->
        get_trajectory_slope t =
          Ok (Some ((snd final .- snd first)
                      ./ (fst final .- fst first
                            .+ of_float 1e-07%float)))).
Proof.
  split; [|split].
  - intros Hlt. unfold get_trajectory_slope, get_velocity.
    destruct (Z.ltb_spec (Z.of_nat (length (trajectory t))) 2); [|lia].
    split; reflexivity.
  - intros Hge.
    destruct (trajectory t) as [|first rest] eqn:Htr; [cbn in Hge; lia|].
    destruct (last (first :: rest)) as [final|] eqn:Hlast.
    + exists first, final. split; [reflexivity|]. split; [reflexivity|].
      rewrite <- Htr in Hlast.
      apply get_trajectory_slope_ends; rewrite ?Htr; [exact Hge| |].
      * reflexivity.
      * rewrite <- Htr. exact Hlast.
    + apply last_None in Hlast. discriminate Hlast.
  - intros first final between Htr.
    apply get_trajectory_slope_ends; rewrite Htr.
    + rewrite length_cons, length_app. cbn. lia.
    + reflexivity.
    + rewrite app_comm_cons. apply last_snoc.
Qed.

(** C8, as amended.  When [to_ltwh] returns a box [(l, t, w, h)],
    [to_ltrb] returns a box too, and subtracting its top-left corner from
    its bottom-right corner gives back [l] and [t] as they were, with
    [(l + w) - l] for the width and [(t + h) - t] for the height.  So in an
    exact arithmetic, one in which [(x + y) - x = y] for all scalars, the
    round trip through [to_ltrb] recovers what [to_ltwh] returns, for every
    track and for every [orig] and [orig_strict]: for the box derived from
    the filter mean and for the original box alike. *)
Theorem ltwh_ltrb_round_trip t (orig orig_strict : bool) :
  (forall b,
     to_ltwh t orig orig_strict = Some b ->
     exists c,
       to_ltrb t orig orig_strict = Some c
       /\ i0 (ltrb_to_ltwh c) = i0 b
       /\ i1 (ltrb_to_ltwh c) = i1 b
       /\ i2 (ltrb_to_ltwh c) = (i0 b .+ i2 b) .- i0 b
       /\ i3 (ltrb_to_ltwh c) = (i1 b .+ i3 b) .- i1 b)
  /\ ((forall x y : A, (x .+ y) .- x = y) ->
      ltrb_to_ltwh <$> to_ltrb t orig orig_strict = to_ltwh t orig orig_strict).
Proof.
  rewrite to_ltrb_of_to_ltwh. split.
  - intros b ->. eexists. split; [reflexivity|]. repeat split.
  - intros Hcancel.
    destruct (to_ltwh t orig orig_strict) as [[l u w h]|]; [|reflexivity].
    cbn. unfold ltrb_to_ltwh, set_hi2, arr2_map2, hi2, lo2. cbn.
    rewrite !Hcancel. reflexivity.
Qed.

End Geometry.

(** * The geometry queries write to no array of the track *)

Create HintDb keeps discriminated.

Section BufferFacts.
Context {A : Type}.
Context `{!Add A, !Subtract A, !Multiply A, !TrueDivide A,
          !FloorDivide A, !OfInt A}.
Import buffers.

Local Abbreviation store := (list (list A)).
Implicit Types (h : store) (v w : ndarray) (self : buffers.Track).

Lemma keeps_ret {X} h0 (x : X) (Q : X -> Prop) : Q x -> keeps h0 (ret x) Q.
Proof. intros Hq h Hh. split; [exact Hh|exact Hq]. Qed.

Lemma keeps_raise {X} h0 e (Q : X -> Prop) : keeps h0 (raise e) Q.
Proof. intros h Hh. split; [exact Hh|exact I]. Qed.

Lemma keeps_bind {X Y} h0 (m : M store X) (k : X -> M store Y)
    (P : X -> Prop) (Q : Y -> Prop) :
  keeps h0 m P -> (forall x, P x -> keeps h0 (k x) Q) -> keeps h0 (bind m k) Q.
Proof.
  intros Hm Hk h Hh. unfold bind.
  destruct (Hm h Hh) as [Hext Hp].
  destruct (m h) as [[x|e] h1]; cbn in *.
  - exact (Hk x Hp h1 Hext).
  - split; [exact Hext|exact I].
Qed.

Lemma keeps_weaken {X} h0 (m : M store X) (P Q : X -> Prop) :
  keeps h0 m P -> (forall x, P x -> Q x) -> keeps h0 m Q.
Proof.
  intros Hm Hpq h Hh. destruct (Hm h Hh) as [Hext Hp]. split; [exact Hext|].
  destruct (fst (m h)); [apply Hpq; exact Hp|exact I].
Qed.

Lemma keeps_load h0 v : keeps h0 (load v) (fun _ => True).
Proof. intros h Hh. split; [exact Hh|exact I]. Qed.

Lemma keeps_alloc h0 (data : list A) : keeps h0 (alloc data) (later h0).
Proof.
  intros h [ext ->]. cbn. split.
  - exists (ext ++ [data]). rewrite app_assoc. reflexivity.
  - unfold later. cbn. rewrite length_app. lia.
Qed.

Lemma keeps_write h0 v (data : list A) :
  later h0 v -> keeps h0 (write v data) (fun _ => True).
Proof.
  intros Hv h [ext ->]. unfold write. cbn [fst snd]. split; [|exact I].
  rewrite alter_app_r_alt by exact Hv. eexists. reflexivity.
Qed.

Lemma keeps_copy h0 v : keeps h0 (copy v) (later h0).
Proof.
  unfold copy. eapply keeps_bind; [apply keeps_load|].
  intros data _. apply keeps_alloc.
Qed.

Lemma keeps_getitem h0 v i : keeps h0 (getitem v i) (fun _ => True).
Proof.
  unfold getitem. eapply keeps_bind; [apply keeps_load|].
  intros data _. destruct (data !! i); [apply keeps_ret; exact I|apply keeps_raise].
Qed.

Lemma keeps_setitem h0 v i (x : A) :
  later h0 v -> keeps h0 (setitem v i x) (fun _ => True).
Proof.
  intros Hv. unfold setitem. eapply keeps_bind; [apply keeps_load|].
  intros data _. destruct (decide (i < length data)%nat);
    [apply keeps_write; exact Hv|apply keeps_raise].
Qed.

Lemma keeps_scalar_op h0 (f : A -> A -> A) v (c : A) :
  keeps h0 (scalar_op f v c) (later h0).
Proof.
  unfold scalar_op. eapply keeps_bind; [apply keeps_load|].
  intros data _. apply keeps_alloc.
Qed.

Lemma keeps_binop h0 (f : A -> A -> A) v w : keeps h0 (binop f v w) (later h0).
Proof.
  unfold binop. eapply keeps_bind; [apply keeps_load|]. intros xs _.
  eapply keeps_bind; [apply keeps_load|]. intros ys _.
  destruct (broadcast f xs ys); [apply keeps_alloc|apply keeps_raise].
Qed.

Lemma keeps_inplace h0 (f : A -> A -> A) v w :
  later h0 v -> keeps h0 (inplace f v w) (fun _ => True).
Proof.
  intros Hv. unfold inplace. eapply keeps_bind; [apply keeps_load|]. intros xs _.
  eapply keeps_bind; [apply keeps_load|]. intros ys _.
  destruct (broadcast_into f xs ys); [apply keeps_write; exact Hv|apply keeps_raise].
Qed.

Lemma later_slice_to h0 v n : later h0 v -> later h0 (slice_to v n).
Proof. intros Hv. exact Hv. Qed.

Lemma later_slice_from h0 v n : later h0 v -> later h0 (slice_from v n).
Proof. intros Hv. exact Hv. Qed.

#[local] Hint Resolve keeps_ret keeps_raise keeps_load keeps_alloc keeps_write
  keeps_copy keeps_getitem keeps_setitem keeps_scalar_op keeps_binop
  keeps_inplace later_slice_to later_slice_from : keeps.

(** One statement of a query body: the rule of sequence, its first premise
    by the rules of the array operations. *)
Ltac keeps_step := eapply keeps_bind; [solve [eauto with keeps]|intros ? ?].

Lemma keeps_to_center h0 self : keeps h0 (buffers.to_center self) (later h0).
Proof.
  unfold buffers.to_center.
  destruct (buffers.original_ltwh self) as [box|]; [|apply keeps_raise].
  do 3 keeps_step. eauto with keeps.
Qed.

Lemma keeps_to_ltwh h0 self (orig orig_strict : bool) :
  keeps h0 (buffers.to_ltwh self orig orig_strict)
    (fun r => forall a, r = Some a -> later h0 a).
Proof.
  assert (Hkalman :
    keeps h0
      (r <- copy (slice_to (buffers.mean self) 4) ;;
       a <- getitem r 2 ;;
       b <- getitem r 3 ;;
       setitem r 2 (a .* b) ;;
       half <- scalar_op np_true_divide (slice_from r 2) (of_int 2) ;;
       inplace np_subtract (slice_to r 2) half ;;
       ret (Some r))
      (fun r => forall a, r = Some a -> later h0 a)).
  { do 6 keeps_step. apply keeps_ret. intros a' [= <-]. assumption. }
  unfold buffers.to_ltwh. destruct orig; [|exact Hkalman].
  destruct (buffers.original_ltwh self) as [box|].
  - keeps_step. apply keeps_ret. intros a' [= <-]. assumption.
  - destruct orig_strict; [|exact Hkalman].
    apply keeps_ret. intros a' Ha. discriminate Ha.
Qed.

Lemma keeps_to_ltrb h0 self (orig orig_strict : bool) :
  keeps h0 (buffers.to_ltrb self orig orig_strict)
    (fun r => forall a, r = Some a -> later h0 a).
Proof.
  unfold buffers.to_ltrb. eapply keeps_bind; [apply keeps_to_ltwh|].
  intros [a|] Ha.
  - specialize (Ha a eq_refl). do 2 keeps_step.
    apply keeps_ret. intros a' [= <-]. assumption.
  - apply keeps_ret. intros a' Hn. discriminate Hn.
Qed.

(** From the invariant to the statement on stores. *)
Lemma keeps_reads_only {X} (m : M store X) (array_of : X -> option ndarray) :
  (forall h0, keeps h0 m (fun x => forall a, array_of x = Some a -> later h0 a)) ->
  reads_only m array_of.
Proof.
  intros Hm h. destruct (Hm h h) as [[ext Hext] Hq].
  { exists []. rewrite app_nil_r. reflexivity. }
  unfold exec, returned. split.
  - intros i b Hi. rewrite Hext.
    rewrite lookup_app_l by (eapply lookup_lt_Some; exact Hi). exact Hi.
  - intros x a Hx Ha. rewrite Hx in Hq.
    apply lookup_ge_None. exact (Hq a Ha).
Qed.

(** C9.  None of [to_ltwh], [to_tlwh], [to_ltrb], [to_tlbr] and
    [to_center] writes to an array that existed before the call: whatever
    the store, every buffer in it is unchanged afterwards, so [mean] and
    [original_ltwh] show the elements they showed before, and the array
    returned is in a newly allocated buffer.  The in-place arithmetic of
    [to_ltrb] and of the others therefore lands in a copy. *)
Theorem geometry_queries_read_only self (orig orig_strict : bool) :
  reads_only (buffers.to_ltwh (A:=A) self orig orig_strict) (fun r => r)
  /\ reads_only (buffers.to_tlwh (A:=A) self orig orig_strict) (fun r => r)
  /\ reads_only (buffers.to_ltrb (A:=A) self orig orig_strict) (fun r => r)
  /\ reads_only (buffers.to_tlbr (A:=A) self orig orig_strict) (fun r => r)
  /\ reads_only (buffers.to_center (A:=A) self) Some
  /\ (forall (h : store) v,
        is_Some (h !! base v) ->
        elements v (exec (buffers.to_ltwh self orig orig_strict) h) = elements v h
        /\ elements v (exec (buffers.to_ltrb self orig orig_strict) h) = elements v h
        /\ elements v (exec (buffers.to_center self) h) = elements v h).
Proof.
  assert (H1 : reads_only (buffers.to_ltwh (A:=A) self orig orig_strict) (fun r => r))
    by (apply keeps_reads_only; intros h0; apply keeps_to_ltwh).
  assert (H2 : reads_only (buffers.to_ltrb (A:=A) self orig orig_strict) (fun r => r))
    by (apply keeps_reads_only; intros h0; apply keeps_to_ltrb).
  assert (H3 : reads_only (buffers.to_center (A:=A) self) Some).
  { apply keeps_reads_only. intros h0.
    eapply keeps_weaken; [apply keeps_to_center|].
    intros x Hx a [= <-]. exact Hx. }
  split; [exact H1|]. split; [exact H1|]. split; [exact H2|].
  split; [exact H2|]. split; [exact H3|].
  intros h v [b Hb].
  destruct (H1 h) as [U1 _], (H2 h) as [U2 _], (H3 h) as [U3 _].
  unfold elements. rewrite (U1 _ _ Hb), (U2 _ _ Hb), (U3 _ _ Hb), Hb.
  repeat split.
Qed.

End BufferFacts.

(** * The buffer model computes the boxes of the value model *)

Section Refinement.
Context {A Cov Feature Cls Conf Mask Other Id : Type}.
Context `{!Add A, !Subtract A, !Multiply A, !TrueDivide A,
          !FloorDivide A, !OfInt A}.
Local Abbreviation store := (list (list A)).
Local Abbreviation TrackV := (Track A Cov Feature Cls Conf Mask Other Id).
Local Abbreviation v_mean := (@mean A Cov Feature Cls Conf Mask Other Id).
Local Abbreviation v_original_ltwh :=
  (@original_ltwh A Cov Feature Cls Conf Mask Other Id).
Local Abbreviation v_to_ltwh := (@to_ltwh A Cov Feature Cls Conf Mask Other Id _ _ _ _).
Local Abbreviation v_to_ltrb := (@to_ltrb A Cov Feature Cls Conf Mask Other Id _ _ _ _ _).
Local Abbreviation v_to_center := (@to_center A Cov Feature Cls Conf Mask Other Id _ _ _).
Import buffers.
Implicit Types (h news : store) (v w : ndarray) (self : buffers.Track).

Local Arguments bind : simpl never.
Local Arguments load : simpl never.
Local Arguments alloc : simpl never.
Local Arguments write : simpl never.
Local Arguments copy : simpl never.
Local Arguments getitem : simpl never.
Local Arguments setitem : simpl never.
Local Arguments scalar_op : simpl never.
Local Arguments binop : simpl never.
Local Arguments inplace : simpl never.
Local Arguments elements : simpl never.

Lemma lookup_later h news k : (h ++ news) !! (length h + k)%nat = news !! k.
Proof. induction h as [|b h IH]; [reflexivity|exact IH]. Qed.

Lemma alter_later (f : list A -> list A) h news k :
  alter f (length h + k)%nat (h ++ news) = h ++ alter f k news.
Proof.
  induction h as [|b h IH]; [reflexivity|]. cbn. f_equal. exact IH.
Qed.

Lemma elements_later h news k off sz :
  elements {| base := length h + k; offset := off; size := sz |} (h ++ news)
  = shown news k off sz.
Proof. unfold elements, shown. cbn. rewrite lookup_later. reflexivity. Qed.

Lemma alloc_run h news (data : list A) :
  alloc data (h ++ news) =
  (Ok {| base := length h + length news; offset := 0; size := length data |},
   h ++ (news ++ [data])).
Proof. unfold alloc. rewrite length_app, app_assoc. reflexivity. Qed.

Lemma write_run h news k off sz (data : list A) :
  write {| base := length h + k; offset := off; size := sz |} data (h ++ news) =
  (Ok tt,
   h ++ alter (fun b => take off b ++ data ++ drop (off + length data) b) k news).
Proof. unfold write. cbn. rewrite alter_later. reflexivity. Qed.

Lemma copy_old h v :
  copy v h =
  (Ok {| base := length h + 0; offset := 0; size := length (elements v h) |},
   h ++ [elements v h]).
Proof. unfold copy, bind, load, alloc. cbn. rewrite Nat.add_0_r. reflexivity. Qed.

Lemma getitem_run h news k off sz i :
  getitem {| base := length h + k; offset := off; size := sz |} i (h ++ news) =
  (match shown news k off sz !! i with
   | Some x => Ok x
   | None => Raise IndexError
   end, h ++ news).
Proof.
  unfold getitem, bind, load. rewrite elements_later.
  destruct (shown news k off sz !! i); reflexivity.
Qed.

Lemma setitem_run h news k off sz i (x : A) :
  (i < length (shown news k off sz))%nat ->
  setitem {| base := length h + k; offset := off; size := sz |} i x (h ++ news) =
  write {| base := length h + k; offset := off; size := sz |}
    (<[i := x]> (shown news k off sz)) (h ++ news).
Proof.
  intros Hi. unfold setitem, bind, load. rewrite elements_later.
  destruct (decide (i < length (shown news k off sz))%nat); [reflexivity|lia].
Qed.

Lemma scalar_op_run (f : A -> A -> A) h news k off sz (c : A) :
  scalar_op f {| base := length h + k; offset := off; size := sz |} c (h ++ news) =
  alloc (map (fun x => f x c) (shown news k off sz)) (h ++ news).
Proof. unfold scalar_op, bind, load. rewrite elements_later. reflexivity. Qed.

Lemma binop_run (f : A -> A -> A) h news k off sz k' off' sz' :
  length (shown news k off sz) = length (shown news k' off' sz') ->
  binop f {| base := length h + k; offset := off; size := sz |}
          {| base := length h + k'; offset := off'; size := sz' |} (h ++ news) =
  alloc (zip_with f (shown news k off sz) (shown news k' off' sz')) (h ++ news).
Proof.
  intros Hlen. unfold binop, bind, load, broadcast. rewrite !elements_later.
  destruct (decide (length (shown news k off sz) = length (shown news k' off' sz')));
    [reflexivity|contradiction].
Qed.

Lemma inplace_run (f : A -> A -> A) h news k off sz k' off' sz' :
  length (shown news k off sz) = length (shown news k' off' sz') ->
  inplace f {| base := length h + k; offset := off; size := sz |}
            {| base := length h + k'; offset := off'; size := sz' |} (h ++ news) =
  write {| base := length h + k; offset := off; size := sz |}
    (zip_with f (shown news k off sz) (shown news k' off' sz')) (h ++ news).
Proof.
  intros Hlen. unfold inplace, bind, load, broadcast_into. rewrite !elements_later.
  destruct (decide (length (shown news k off sz) = length (shown news k' off' sz')));
    [reflexivity|contradiction].
Qed.

Lemma elements_slice_to_4 h v (m : arr8 A) :
  size v = 8%nat -> elements v h = list8 m ->
  elements (slice_to v 4) h = list4 (head4 m).
Proof.
  unfold elements, slice_to. cbn. intros -> Hm. cbn.
  change 4%nat with (Nat.min 4 8) at 1. rewrite <- take_take, Hm. reflexivity.
Qed.

Lemma kalman_run h self (t : TrackV) :
  size (buffers.mean self) = 8%nat ->
  elements (buffers.mean self) h = list8 (v_mean t) ->
  exists b rest,
    v_to_ltwh t false false = Some b
    /\ (r <- copy (slice_to (buffers.mean self) 4) ;;
        a <- getitem r 2 ;;
        b <- getitem r 3 ;;
        setitem r 2 (a .* b) ;;
        half <- scalar_op np_true_divide (slice_from r 2) (of_int 2) ;;
        inplace np_subtract (slice_to r 2) half ;;
        ret (Some r)) h = (Ok (Some (at_end h 4)), h ++ list4 b :: rest).
Proof.
  intros Hsz Hm.
  pose proof (elements_slice_to_4 h _ _ Hsz Hm) as H4.
  rewrite to_ltwh_filter.
  destruct (head4 (v_mean t)) as [x y a hh] eqn:Hhead.
  do 2 eexists. split; [reflexivity|].
  unfold bind at 1. rewrite copy_old, H4. cbn.
  unfold bind at 1. rewrite getitem_run. cbn.
  unfold bind at 1. rewrite getitem_run. cbn.
  unfold bind at 1. rewrite setitem_run by (cbn; lia). rewrite write_run. cbn.
  unfold slice_from, slice_to. cbn.
  unfold bind at 1. rewrite scalar_op_run, alloc_run. cbn.
  unfold bind at 1. rewrite inplace_run by reflexivity. rewrite write_run. cbn.
  unfold ret. reflexivity.
Qed.

Lemma to_ltwh_run h self (t : TrackV) (orig orig_strict : bool) :
  represents h self t ->
  match v_to_ltwh t orig orig_strict with
  | Some b =>
      exists rest,
        buffers.to_ltwh self orig orig_strict h =
        (Ok (Some (at_end h 4)), h ++ list4 b :: rest)
  | None => buffers.to_ltwh self orig orig_strict h = (Ok None, h)
  end.
Proof.
  intros (Hsz & Hm & Ho).
  destruct (kalman_run h self t Hsz Hm) as (bk & rest & Hbk & Hrun).
  rewrite to_ltwh_cases, Hbk. unfold buffers.to_ltwh.
  destruct orig; [|exists rest; exact Hrun].
  destruct (buffers.original_ltwh self) as [v|], (v_original_ltwh t) as [b|];
    try contradiction.
  - destruct Ho as [Hv Hb]. exists [].
    unfold bind at 1. rewrite copy_old, Hb. reflexivity.
  - destruct orig_strict; [reflexivity|]. exists rest. exact Hrun.
Qed.

Lemma shown_snoc (d0 d : list A) (rest : store) off sz :
  shown (d0 :: rest ++ [d]) (S (length rest)) off sz = take sz (drop off d).
Proof.
  unfold shown. cbn.
  replace (length rest) with (length rest + 0)%nat at 1 by lia.
  rewrite lookup_later. reflexivity.
Qed.

Lemma to_ltrb_run h self (t : TrackV) (orig orig_strict : bool) :
  represents h self t ->
  match v_to_ltrb t orig orig_strict with
  | Some c =>
      exists rest,
        buffers.to_ltrb self orig orig_strict h =
        (Ok (Some (at_end h 4)), h ++ list4 c :: rest)
  | None => buffers.to_ltrb self orig orig_strict h = (Ok None, h)
  end.
Proof.
  intros Hrep. pose proof (to_ltwh_run h self t orig orig_strict Hrep) as Hrun.
  rewrite to_ltrb_of_to_ltwh. unfold buffers.to_ltrb.
  destruct (v_to_ltwh t orig orig_strict) as [[l u w hh]|]; cbn.
  - destruct Hrun as [rest Hrun]. eexists.
    unfold bind at 1. rewrite Hrun. unfold at_end, slice_from, slice_to. cbn.
    unfold bind at 1. rewrite binop_run by reflexivity. rewrite alloc_run. cbn.
    unfold bind at 1. unfold assign.
    rewrite inplace_run by (rewrite shown_snoc; reflexivity).
    rewrite write_run, shown_snoc. cbn. unfold ret. reflexivity.
  - unfold bind at 1. rewrite Hrun. reflexivity.
Qed.

Lemma to_center_run h self (t : TrackV) :
  represents h self t ->
  match v_to_center t with
  | Ok p =>
      exists tl rest,
        buffers.to_center self h =
        (Ok (at_end h 2), h ++ (list2 p ++ tl) :: rest)
  | Raise e => buffers.to_center self h = (Raise e, h)
  end.
Proof.
  intros (Hsz & Hm & Ho). rewrite to_center_value. unfold buffers.to_center.
  destruct (buffers.original_ltwh self) as [v|], (v_original_ltwh t) as [b|];
    try contradiction; [|reflexivity].
  destruct Ho as [Hv Hb]. destruct b as [l u w hh]. do 2 eexists.
  unfold bind at 1. rewrite copy_old, Hb. unfold slice_from, slice_to. cbn.
  unfold bind at 1. rewrite scalar_op_run, alloc_run. cbn.
  unfold bind at 1. rewrite inplace_run by reflexivity. rewrite write_run. cbn.
  unfold ret, at_end, list2. cbn. reflexivity.
Qed.

(** X15.  The refinement.  On a store that holds the arrays of [t], an
    8-element mean and a 4-element original box or none, [to_ltwh] and
    [to_ltrb] of the buffer model return normally, with an array showing
    the elements of the box the value model returns, and [None] where it
    returns [None]: no index or shape error arises. *)
Theorem boxes_refine h self (t : TrackV) (orig orig_strict : bool) :
  represents h self t ->
  (exists r,
     returned (buffers.to_ltwh self orig orig_strict) h = Ok r
     /\ (fun a => elements a (exec (buffers.to_ltwh self orig orig_strict) h)) <$> r
        = list4 <$> v_to_ltwh t orig orig_strict)
  /\ (exists r,
        returned (buffers.to_ltrb self orig orig_strict) h = Ok r
        /\ (fun a => elements a (exec (buffers.to_ltrb self orig orig_strict) h)) <$> r
           = list4 <$> v_to_ltrb t orig orig_strict).
Proof.
  intros Hrep. unfold returned, exec. split.
  - pose proof (to_ltwh_run h self t orig orig_strict Hrep) as Hrun.
    destruct (v_to_ltwh t orig orig_strict) as [b|].
    + destruct Hrun as [rest ->]. eexists. split; [reflexivity|]. cbn.
      unfold at_end. rewrite elements_later. reflexivity.
    + rewrite Hrun. eexists. split; reflexivity.
  - pose proof (to_ltrb_run h self t orig orig_strict Hrep) as Hrun.
    destruct (v_to_ltrb t orig orig_strict) as [c|].
    + destruct Hrun as [rest ->]. eexists. split; [reflexivity|]. cbn.
      unfold at_end. rewrite elements_later. reflexivity.
    + rewrite Hrun. eexists. split; reflexivity.
Qed.

(** X18.  Likewise [to_center] returns a two-element array showing the
    point the value model returns, and raises [AttributeError] where the
    value model raises. *)
Theorem center_refines h self (t : TrackV) :
  represents h self t ->
  match v_to_center t with
  | Ok p =>
      exists a,
        returned (buffers.to_center self) h = Ok a
        /\ elements a (exec (buffers.to_center self) h) = list2 p
  | Raise e => returned (buffers.to_center self) h = Raise e
  end.
Proof.
  intros Hrep. unfold returned, exec.
  pose proof (to_center_run h self t Hrep) as Hrun.
  destruct (v_to_center t) as [p|e].
  - destruct Hrun as (tl & rest & ->). eexists. split; [reflexivity|]. cbn.
    unfold at_end. rewrite elements_later. reflexivity.
  - rewrite Hrun. reflexivity.
Qed.

End Refinement.

(** * The properties on the sample objects *)

Section Samples.
Import float64 integer rational sample.

(** The life cycle of a track with [n_init = 3] and [max_age = 2]: the
    first [update] leaves it tentative with [hits = 2], the second
    confirms it, three [predict]s later a miss deletes it. *)
Example confirmed_on_second_update :
  hits t_seen = 1
  /\ state (run [Update still d_feature] t_seen) = Tentative
  /\ state (run [Update still d_feature; Update still d_feature] t_seen)
     = Confirmed
  /\ state (run [Update still d_feature; Update still d_feature;
                 Predict still; Predict still; MarkMissed] t_seen)
     = Confirmed
  /\ state (run [Update still d_feature; Update still d_feature;
                 Predict still; Predict still; Predict still; MarkMissed]
              t_seen)
     = Deleted.
Proof. repeat split; reflexivity. Qed.

(** On integer boxes the centre is floor-divided: half of 5 is 2, half of
    7 is 3, half of -3 is -2. *)
Example init_center_floor :
  trajectory t_seen = [(12, 23)]
  /\ to_center (set_original_ltwh (Some (Arr4 10 20 (-3) 7)) t_seen)
     = Ok (8, 23).
Proof. split; reflexivity. Qed.

Lemma state_monotone_deleted_absorbing_witness :
  state (run [MarkMissed] t_seen) = Deleted
  /\ state (run ([MarkMissed]
                 ++ [Update still d_feature; Update still d_feature;
                     Predict still; MarkMissed]) t_seen) = Deleted.
Proof.
  split; [reflexivity|].
  apply (proj2 (state_monotone_deleted_absorbing [MarkMissed]
           [Update still d_feature; Update still d_feature;
            Predict still; MarkMissed] t_seen)).
  reflexivity.
Defined.

(** C2 as stated fails on a track that a miss has deleted: with
    [n_init = 3], after [mark_missed] and one [update] the next [update]
    is the first whose incremented [hits] reaches 3, and the state stays
    [Deleted]. *)
Lemma deleted_track_is_not_confirmed :
  let cs := [MarkMissed; Update still d_feature] in
  let c := Update still d_feature in
  hits (exec (do c) (run cs t_seen)) = 3
  /\ reaches_n_init c (run cs t_seen)
  /\ (forall cs1 c1 cs2,
        cs = cs1 ++ c1 :: cs2 -> ~ reaches_n_init c1 (run cs1 t_seen))
  /\ state (exec (do c) (run cs t_seen)) = Deleted
  /\ ~ confirms c (run cs t_seen).
Proof.
  cbv zeta. split; [reflexivity|]. split; [|split; [|split]].
  - split; [eauto|]. cbn. lia.
  - intros cs1 c1 cs2 Hcs [(kf & d & ->) Hle].
    destruct cs1 as [|a [|b cs1]]; cbn in Hcs.
    + discriminate Hcs.
    + injection Hcs as <- <- <- _. cbn in Hle. lia.
    + injection Hcs as _ _ Hcs. destruct cs1; discriminate Hcs.
  - reflexivity.
  - intros [_ Hc]. discriminate Hc.
Qed.

Lemma mark_missed_effect_witness :
  state t_seen = Tentative /\ state (exec mark_missed t_seen) = Deleted.
Proof.
  split; [reflexivity|].
  apply (proj1 (proj2 (mark_missed_effect t_seen))). reflexivity.
Defined.

(** C4 as stated fails: the track has one feature; a detection without a
    feature vector is matched; [features] is not what it was (it has a
    second, absent entry) and neither is [latest_feature]. *)
Lemma update_absent_feature_changes_features :
  detection.feature d_nofeature = None
  /\ features t_seen = [Some [1; 2; 3]]
  /\ features (exec (update still d_nofeature) t_seen)
     = [Some [1; 2; 3]; None]
  /\ features (exec (update still d_nofeature) t_seen) <> features t_seen
  /\ latest_feature t_seen = Some [1; 2; 3]
  /\ latest_feature (exec (update still d_nofeature) t_seen) = None
  /\ latest_feature (exec (update still d_nofeature) t_seen)
     <> latest_feature t_seen.
Proof. repeat split; (reflexivity || discriminate). Qed.

Lemma update_appends_absent_feature_witness :
  detection.feature d_nofeature = None
  /\ features (exec (update still d_nofeature) t_seen)
     = features t_seen ++ [None]
  /\ length (features (exec (update still d_nofeature) t_seen))
     = S (length (features t_seen))
  /\ latest_feature (exec (update still d_nofeature) t_seen) = None
  /\ hits (exec (update still d_nofeature) t_seen) = hits t_seen + 1.
Proof.
  split; [reflexivity|].
  apply (update_appends_absent_feature still d_nofeature t_seen). reflexivity.
Defined.

Lemma to_ltwh_orig_strict_witness :
  original_ltwh t_filter = None
  /\ to_ltwh t_filter true true = None
  /\ to_ltrb t_filter true true = None.
Proof.
  split; [reflexivity|].
  destruct (to_ltwh_orig_strict t_filter eq_refl) as (H1 & _ & H3 & _).
  split; [exact H1|exact H3].
Defined.

(** The filter-derived box of [t_filter]: centre [(0.2, 0.2)], aspect 1,
    height 0.2, so width 0.2 and top-left [(0.1, 0.1)]. *)
Example to_ltwh_filter_box :
  to_ltwh t_filter true false
  = Some (Arr4 0.1%float 0.1%float 0.2%float 0.2%float).
Proof. vm_compute. reflexivity. Qed.

Lemma kinematics_by_trajectory_length_witness :
  ((length (trajectory t_filter) < 2)%nat
   /\ get_trajectory_slope t_filter = Ok None
   /\ get_velocity t_filter fps_default = (None, None, None))
  /\ ((2 <= length (trajectory t_three))%nat
      /\ get_trajectory_slope t_three =
           Ok (Some ((0 .- 0) ./ (2 .- 0 .+ of_float 1e-07))%float)).
Proof.
  split.
  - assert (Hlt : (length (trajectory t_filter) < 2)%nat) by (cbn; lia).
    split; [exact Hlt|].
    exact (proj1 (kinematics_by_trajectory_length t_filter fps_default) Hlt).
  - assert (Hge : (2 <= length (trajectory t_three))%nat) by (cbn; lia).
    split; [exact Hge|].
    exact (proj2 (proj2 (kinematics_by_trajectory_length t_three fps_default))
             (0, 0)%float (2, 0)%float [(1, 0)%float] eq_refl).
Defined.

(** Along [(0, 0)], [(1, 0)], [(2, 0)] the slope is 0, and at 5 frames
    per second the speed is 5 at each step. *)
Example slope_and_velocity_of_three :
  get_trajectory_slope t_three = Ok (Some 0%float)
  /\ get_velocity t_three fps_default =
       (Some 5%float, Some [5%float; 5%float],
        Some [((5 / (5 + 1e-8))%float, 0%float);
              ((5 / (5 + 1e-8))%float, 0%float)]).
Proof. split; vm_compute; reflexivity. Qed.

(** [np.mean] does not add eight or more floats from left to right: adding
    1 to [1e16] seven times over leaves [1e16], but the mean of [1e16] and
    seven ones is [(1e16 + 6) / 8], the ones having been added in pairs. *)
Example np_mean_of_eight :
  np_mean [1e16; 1; 1; 1; 1; 1; 1; 1]%float = 1250000000000000.75%float
  /\ (fold_left PrimFloat.add [1; 1; 1; 1; 1; 1; 1] 1e16 / 8
      = 1250000000000000)%float.
Proof. split; vm_compute; reflexivity. Qed.

(** C8 as stated fails on float64, for the filter-derived box and for an
    original box alike: the box is [(0.1, 0.1, 0.2, 0.2)], its corner form
    has right and bottom [0.1 + 0.2], and subtracting 0.1 again does not
    give 0.2. *)
Lemma round_trip_not_exact_on_floats :
  (exists b c,
     to_ltwh t_filter false false = Some b
     /\ to_ltrb t_filter false false = Some c
     /\ ltrb_to_ltwh c <> b)
  /\ (exists b c,
        to_ltwh t_box true true = Some b
        /\ to_ltrb t_box true true = Some c
        /\ ltrb_to_ltwh c <> b).
Proof.
  split; do 2 eexists; (split; [reflexivity|]); (split; [reflexivity|]);
    intros Heq;
    apply (f_equal (fun r => PrimFloat.eqb (i2 r) 0.2%float)) in Heq;
    vm_compute in Heq; discriminate Heq.
Qed.

(** How far off it is: the width comes back as 0.20000000000000004. *)
Example round_trip_width_on_floats :
  i2 <$> (ltrb_to_ltwh <$> to_ltrb t_box true true)
  = Some 0.20000000000000004%float.
Proof. vm_compute. reflexivity. Qed.

(** The arithmetic of fractions is exact. *)
Lemma rational_add_subtract_cancel (x y : Qcanon.Qc) : (x .+ y) .- x = y.
Proof.
  unfold np_add, np_subtract, rational.add, rational.subtract, Qcanon.Qcminus.
  rewrite (Qcanon.Qcplus_comm x y), <- Qcanon.Qcplus_assoc.
  rewrite Qcanon.Qcplus_opp_r. apply Qcanon.Qcplus_0_r.
Qed.

Lemma ltwh_ltrb_round_trip_witness :
  (forall x y : Qcanon.Qc, (x .+ y) .- x = y)
  /\ ltrb_to_ltwh <$> to_ltrb q_filter false false = to_ltwh q_filter false false
  /\ ltrb_to_ltwh <$> to_ltrb q_box true true = to_ltwh q_box true true.
Proof.
  split; [exact rational_add_subtract_cancel|]. split.
  - exact (proj2 (ltwh_ltrb_round_trip q_filter false false)
             rational_add_subtract_cancel).
  - exact (proj2 (ltwh_ltrb_round_trip q_box true true)
             rational_add_subtract_cancel).
Defined.

(** In fractions the filter-derived box of the mean [(1/5, 1/5, 1, 1/5)]
    is [(1/10, 1/10, 1/5, 1/5)], the box that fails to come back in
    float64, and its corner form is [(1/10, 1/10, 3/10, 3/10)]. *)
Example to_ltwh_filter_box_in_fractions :
  to_ltwh q_filter false false = original_ltwh q_box
  /\ to_ltrb q_filter false false
     = Some (Arr4 (fraction 1 10) (fraction 1 10) (fraction 3 10) (fraction 3 10)).
Proof.
  split; vm_compute; do 2 f_equal; apply Qcanon.Qc_is_canon; reflexivity.
Qed.

(** On the float box [(1, 2, 3, 4)] the two sums are exact and the round
    trip recovers the box. *)
Example round_trip_exact_on_whole_box :
  ltrb_to_ltwh <$> to_ltrb t_whole true true = to_ltwh t_whole true true.
Proof. vm_compute. reflexivity. Qed.

(** On int64 boxes the round trip recovers every width and height, also
    where [l + w] wraps around. *)
Example round_trip_exact_on_integers (b : arr4 Z) :
  integer.wrap (i2 b) = i2 b -> integer.wrap (i3 b) = i3 b ->
  ltrb_to_ltwh (set_hi2 (arr2_map2 np_add (lo2 b) (hi2 b)) b) = b.
Proof.
  destruct b as [l u w h].
  unfold ltrb_to_ltwh, set_hi2, arr2_map2, lo2, hi2, np_add, np_subtract,
    add, subtract, integer.add, integer.subtract, integer.wrap. cbn.
  intros Hw Hh. f_equal.
  - rewrite <- Hw at 2. Z.div_mod_to_equations. lia.
  - rewrite <- Hh at 2. Z.div_mod_to_equations. lia.
Qed.

Example round_trip_wraps_on_integers :
  let b := Arr4 (2 ^ 63 - 1) 0 1 7 in
  set_hi2 (arr2_map2 np_add (lo2 b) (hi2 b)) b = Arr4 (2 ^ 63 - 1) 0 (- 2 ^ 63) 7
  /\ ltrb_to_ltwh (set_hi2 (arr2_map2 np_add (lo2 b) (hi2 b)) b) = b.
Proof. split; vm_compute; reflexivity. Qed.

(** On the store [h_two], [to_ltrb(orig=True)] returns a new array
    [(1, 2, 4, 6)] in buffer 2, next to the temporary [(4, 6)], and
    buffers 0 and 1 are as they were; [to_center] returns the first two
    elements of a new buffer. *)
Example to_ltrb_on_store :
  buffers.to_ltrb self_two true false h_two
  = (Ok (Some {| buffers.base := 2; buffers.offset := 0; buffers.size := 4 |}),
     h_two ++ [[1; 2; 4; 6]; [4; 6]]%float)
  /\ buffers.to_ltwh self_two false false h_two
     = (Ok (Some {| buffers.base := 2; buffers.offset := 0; buffers.size := 4 |}),
        h_two ++ [[0.1; 0.1; 0.2; 0.2]; [0.1; 0.1]]%float).
Proof. split; vm_compute; reflexivity. Qed.

(** The same arithmetic without the copy would be seen: writing the corner
    through a view of buffer 1 changes buffer 1. *)
Example write_through_view_is_seen :
  let box := {| buffers.base := 1; buffers.offset := 0; buffers.size := 4 |} in
  exec (corner <- buffers.binop np_add (buffers.slice_to box 2)
                    (buffers.slice_from box 2) ;;
        buffers.assign (buffers.slice_from box 2) corner) h_two
  = [[0.2; 0.2; 1; 0.2; 0; 0; 0; 0]; [1; 2; 4; 6]; [4; 6]]%float.
Proof. vm_compute. reflexivity. Qed.

(** The store [h_two] holds the arrays of [t_whole], so the boxes the
    buffer model returns there are those of the value model. *)
Example boxes_refine_on_store :
  represents h_two self_two t_whole
  /\ exists r,
       returned (buffers.to_ltrb self_two true true) h_two = Ok r
       /\ (fun a =>
             buffers.elements a (exec (buffers.to_ltrb self_two true true) h_two))
            <$> r
          = list4 <$> to_ltrb t_whole true true.
Proof.
  assert (Hrep : represents h_two self_two t_whole)
    by (repeat split; reflexivity).
  split; [exact Hrep|].
  exact (proj2 (boxes_refine h_two self_two t_whole true true Hrep)).
Defined.

End Samples.

(** * Histories of calls: counters, caches and the state in closed form *)

Section HistoryFacts.
Context {A Cov Feature Cls Conf Mask Other Id : Type}.
Context `{!Add A, !FloorDivide A, !OfInt A}.

Local Abbreviation Track := (Track A Cov Feature Cls Conf Mask Other Id).
Local Abbreviation Call := (Call A Cov Feature Cls Conf Mask Other).
Implicit Types (t : Track) (c : Call) (cs : list Call).
Implicit Types (kf : kalman_filter.KalmanFilter A Cov).
Implicit Types (d : detection.Detection A Feature Cls Conf Mask Other).

(** The centre [to_center] computes of a box. *)
Local Abbreviation center_of box :=
  (i0 box .+ (i2 box .// of_int 2), i1 box .+ (i3 box .// of_int 2)).

Lemma count_nil (p : Call -> bool) : count p [] = 0.
Proof. reflexivity. Qed.

Lemma count_cons (p : Call -> bool) c cs :
  count p (c :: cs) = (if p c then 1 else 0) + count p cs.
Proof. unfold count. cbn. destruct (p c); cbn [length]; lia. Qed.

Lemma count_snoc (p : Call -> bool) cs c :
  count p (cs ++ [c]) = count p cs + (if p c then 1 else 0).
Proof.
  unfold count. rewrite List.filter_app, length_app. cbn.
  destruct (p c); cbn [length]; lia.
Qed.

Lemma count_nonneg (p : Call -> bool) cs : 0 <= count p cs.
Proof. unfold count. lia. Qed.

Lemma run_snoc cs c t : run (cs ++ [c]) t = exec (do c) (run cs t).
Proof. rewrite run_app. reflexivity. Qed.

(** What one call does to the counters and the caches. *)
Lemma do_counters c t :
  hits (exec (do c) t) = hits t + (if is_update c then 1 else 0)
  /\ age (exec (do c) t) = age t + (if is_predict c then 1 else 0)
  /\ _max_age (exec (do c) t) = _max_age t
  /\ track_id (exec (do c) t) = track_id t
  /\ length (features (exec (do c) t))
     = (length (features t) + (if is_update c then 1 else 0))%nat
  /\ length (trajectory (exec (do c) t))
     = (length (trajectory t) + (if is_update c then 1 else 0))%nat.
Proof.
  unfold exec. destruct c as [kf|kf d|]; cbn [do is_update is_predict].
  - rewrite predict_exec. cbn. repeat split; lia.
  - rewrite update_exec. cbn. rewrite !length_app. cbn. repeat split; lia.
  - rewrite mark_missed_exec. cbn. repeat split; lia.
Qed.

Lemma run_hits cs t : hits (run cs t) = hits t + count is_update cs.
Proof.
  induction cs as [|c cs IH] using rev_ind.
  - rewrite count_nil. cbn. lia.
  - rewrite run_snoc, count_snoc.
    destruct (do_counters c (run cs t)) as (-> & _). lia.
Qed.

(** X4.  Whatever the calls, [hits] has grown by the number of [update]s
    and [age] by the number of [predict]s, and [track_id], [_n_init] and
    [_max_age] are what they were. *)
Theorem counters_count_calls cs t :
  hits (run cs t) = hits t + count is_update cs
  /\ age (run cs t) = age t + count is_predict cs
  /\ track_id (run cs t) = track_id t
  /\ _n_init (run cs t) = _n_init t
  /\ _max_age (run cs t) = _max_age t.
Proof.
  split; [apply run_hits|]. split; [|split; [|split; [apply run_n_init|]]].
  - induction cs as [|c cs IH] using rev_ind; [rewrite count_nil; cbn; lia|].
    rewrite run_snoc, count_snoc.
    destruct (do_counters c (run cs t)) as (_ & -> & _). lia.
  - induction cs as [|c cs IH] using rev_ind; [reflexivity|].
    rewrite run_snoc.
    destruct (do_counters c (run cs t)) as (_ & _ & _ & -> & _). exact IH.
  - induction cs as [|c cs IH] using rev_ind; [reflexivity|].
    rewrite run_snoc.
    destruct (do_counters c (run cs t)) as (_ & _ & -> & _). exact IH.
Qed.

Lemma run_lengths cs t :
  length (features (run cs t))
  = (length (features t) + Z.to_nat (count is_update cs))%nat
  /\ length (trajectory (run cs t))
     = (length (trajectory t) + Z.to_nat (count is_update cs))%nat.
Proof.
  induction cs as [|c cs [IHf IHt]] using rev_ind.
  - rewrite count_nil. cbn. lia.
  - rewrite run_snoc, count_snoc.
    destruct (do_counters c (run cs t)) as (_ & _ & _ & _ & -> & ->).
    pose proof (count_nonneg is_update cs). destruct (is_update c); lia.
Qed.

(** The arguments of a constructor call, and the track it builds. *)
Variables (mean_ : arr8 A) (covariance_ : Cov) (track_id_ : Id).
Variables (n_init max_age : Z) (feature : option Feature).
Variables (original_ltwh_ : option (arr4 A)) (det_class_ : option Cls).
Variables (det_conf_ : option Conf) (instance_mask_ : option Mask).
Variables (others_ : option Other).

Local Abbreviation t_new :=
  (snd (__init__ mean_ covariance_ track_id_ n_init max_age feature
          original_ltwh_ det_class_ det_conf_ instance_mask_ others_)).

Lemma new_fields :
  state t_new = Tentative /\ hits t_new = 1 /\ age t_new = 1
  /\ time_since_update t_new = 0 /\ _n_init t_new = n_init
  /\ _max_age t_new = max_age
  /\ features t_new = match feature with Some f => [Some f] | None => [] end
  /\ latest_feature t_new = feature
  /\ original_ltwh t_new = original_ltwh_
  /\ trajectory t_new
     = match original_ltwh_ with Some box => [center_of box] | None => [] end.
Proof. unfold __init__. destruct original_ltwh_, feature; repeat split. Qed.

(** X1.  [__init__] returns normally and leaves a tentative track with
    [hits = 1], [age = 1], [time_since_update = 0]; the arguments are stored
    as given; [features] holds the feature if one was given and is empty
    otherwise, and [latest_feature] is that feature or [None]. *)
Theorem init_effect :
  fst (__init__ mean_ covariance_ track_id_ n_init max_age feature
         original_ltwh_ det_class_ det_conf_ instance_mask_ others_) = Ok tt
  /\ state t_new = Tentative /\ hits t_new = 1 /\ age t_new = 1
  /\ time_since_update t_new = 0
  /\ mean t_new = mean_ /\ covariance t_new = covariance_
  /\ track_id t_new = track_id_
  /\ _n_init t_new = n_init /\ _max_age t_new = max_age
  /\ features t_new = match feature with Some f => [Some f] | None => [] end
  /\ latest_feature t_new = feature
  /\ original_ltwh t_new = original_ltwh_ /\ det_class t_new = det_class_
  /\ det_conf t_new = det_conf_ /\ instance_mask t_new = instance_mask_
  /\ others t_new = others_.
Proof. unfold __init__. destruct original_ltwh_, feature; repeat split. Qed.

(** X5.  After any history of calls on a newly constructed track,
    [features] holds one entry per [update] plus the feature given at
    construction, [trajectory] one point per [update] plus the centre of the
    box given at construction, and neither is longer than [hits]. *)
Theorem caches_grow_with_updates cs :
  Z.of_nat (length (features (run cs t_new)))
  = match feature with Some _ => 1 | None => 0 end + count is_update cs
  /\ Z.of_nat (length (trajectory (run cs t_new)))
     = match original_ltwh_ with Some _ => 1 | None => 0 end + count is_update cs
  /\ Z.of_nat (length (features (run cs t_new))) <= hits (run cs t_new)
  /\ Z.of_nat (length (trajectory (run cs t_new))) <= hits (run cs t_new).
Proof.
  destruct (run_lengths cs t_new) as [Hf Ht].
  destruct new_fields as (_ & Hh & _ & _ & _ & _ & Hfe & _ & _ & Htr).
  pose proof (run_hits cs t_new) as Hhits. rewrite Hh in Hhits.
  pose proof (count_nonneg is_update cs).
  rewrite Hfe in Hf. rewrite Htr in Ht.
  destruct feature, original_ltwh_; cbn [length] in *; lia.
Qed.

(** X2.  [update] returns normally; it resets [time_since_update] to 0,
    increments [hits], leaves [age] alone, appends the detection's feature
    to [features] and the floor-divided centre of the detection's box to
    [trajectory], stores the box, the feature, the confidence, the class,
    the mask and the supplementary data of the detection, takes mean and
    covariance from the filter's [update], and confirms a tentative track
    whose [hits] has reached [_n_init]. *)
Theorem update_effect kf d t :
  returned (update kf d) t = Ok tt
  /\ time_since_update (exec (update kf d) t) = 0
  /\ hits (exec (update kf d) t) = hits t + 1
  /\ age (exec (update kf d) t) = age t
  /\ features (exec (update kf d) t) = features t ++ [detection.feature d]
  /\ latest_feature (exec (update kf d) t) = detection.feature d
  /\ trajectory (exec (update kf d) t)
     = trajectory t ++ [center_of (detection.get_ltwh d)]
  /\ original_ltwh (exec (update kf d) t) = Some (detection.get_ltwh d)
  /\ det_conf (exec (update kf d) t) = detection.confidence d
  /\ det_class (exec (update kf d) t) = detection.class_name d
  /\ instance_mask (exec (update kf d) t) = detection.instance_mask d
  /\ others (exec (update kf d) t) = detection.others d
  /\ (mean (exec (update kf d) t), covariance (exec (update kf d) t))
     = kalman_filter.update kf (mean t) (covariance t) (detection.to_xyah d)
  /\ state (exec (update kf d) t)
     = match state t with
       | Tentative => if hits t + 1 >=? _n_init t then Confirmed else Tentative
       | s => s
       end.
Proof.
  unfold returned, exec. rewrite update_exec. cbn.
  repeat split; [symmetry; apply surjective_pairing|].
  destruct (state t); reflexivity.
Qed.

(** X3.  None of [predict], [update] and [mark_missed] ever raises, though
    [update] calls [to_center]; [to_center] itself raises [AttributeError]
    exactly when the track holds no original box, as it does after every
    [predict], and returns the centre of the box otherwise. *)
Theorem mutators_return_to_center_may_raise c kf t :
  returned (do c) t = Ok tt
  /\ (to_center t = Raise AttributeError <-> original_ltwh t = None)
  /\ to_center (exec (predict kf) t) = Raise AttributeError
  /\ (forall box, original_ltwh t = Some box -> to_center t = Ok (center_of box)).
Proof.
  split; [apply do_returns|]. rewrite to_center_value. split; [|split].
  - destruct (original_ltwh t); split; congruence.
  - rewrite to_center_value. unfold exec. rewrite predict_exec. reflexivity.
  - intros box ->. reflexivity.
Qed.

(** A history without [update] adds its [predict]s to
    [time_since_update]. *)
Lemma idle_time_since_update cs t :
  idle cs -> time_since_update (run cs t) = time_since_update t + count is_predict cs.
Proof.
  induction cs as [|c cs IH] using rev_ind; intros Hidle.
  - rewrite count_nil. cbn. lia.
  - unfold idle in Hidle. rewrite Forall_app, Forall_singleton in Hidle.
    destruct Hidle as [Hcs Hc].
    rewrite run_snoc, count_snoc. specialize (IH Hcs).
    unfold exec. destruct c as [kf|kf d|]; cbn [do is_predict] in *.
    + rewrite predict_exec. cbn. lia.
    + discriminate Hc.
    + rewrite mark_missed_exec. cbn. lia.
Qed.

(** X6.  [time_since_update] is the number of [predict] calls since the
    last [update]: after a history that ends in an [update] followed by
    calls that are not [update]s, it is the number of [predict]s among
    those calls, whatever came before. *)
Theorem time_since_update_counts_predicts pre kf d post t :
  idle post ->
  time_since_update (run (pre ++ Update kf d :: post) t) = count is_predict post
  /\ 0 <= time_since_update (run (pre ++ Update kf d :: post) t).
Proof.
  intros Hidle. rewrite run_app, run_cons, (idle_time_since_update _ _ Hidle).
  unfold exec. cbn [do]. rewrite update_exec. cbn.
  pose proof (count_nonneg is_predict post). lia.
Qed.

(** As long as no miss is marked, a tentative track is confirmed once it
    has been updated and [hits] has reached [_n_init]. *)
Lemma unmissed_state cs t :
  state t = Tentative -> unmissed cs ->
  state (run cs t)
  = if (1 <=? count is_update cs) && (_n_init t <=? hits t + count is_update cs)
    then Confirmed else Tentative.
Proof.
  intros Ht. induction cs as [|c cs IH] using rev_ind; intros Hun.
  - rewrite count_nil. cbn. exact Ht.
  - unfold unmissed in Hun. rewrite Forall_app, Forall_singleton in Hun.
    destruct Hun as [Hcs Hc]. specialize (IH Hcs).
    pose proof (count_nonneg is_update cs) as Hk.
    rewrite run_snoc, count_snoc. unfold exec.
    destruct c as [kf|kf d|]; cbn [do is_update].
    + rewrite predict_exec. cbn. rewrite Z.add_0_r. exact IH.
    + rewrite update_exec. cbn. rewrite IH, run_hits, run_n_init.
      destruct (Z.leb_spec 1 (count is_update cs)),
        (Z.leb_spec (_n_init t) (hits t + count is_update cs)),
        (Z.leb_spec 1 (count is_update cs + 1)),
        (Z.leb_spec (_n_init t) (hits t + (count is_update cs + 1))),
        (Z.geb_spec (hits t + count is_update cs + 1) (_n_init t));
        cbn; try reflexivity; lia.
    + discriminate Hc.
Qed.

(** X7.  A newly constructed track on which no miss has been marked is
    [Confirmed] if it has been updated at least once and
    [1 + updates >= n_init], and [Tentative] otherwise; so it is confirmed
    by its [n_init - 1]-th [update], or by its first when [n_init <= 2]. *)
Theorem unmissed_track_state cs :
  unmissed cs ->
  state (run cs t_new)
  = if (1 <=? count is_update cs) && (n_init <=? 1 + count is_update cs)
    then Confirmed else Tentative.
Proof.
  intros Hun. destruct new_fields as (Hs & Hh & _ & _ & Hn & _).
  rewrite (unmissed_state cs t_new Hs Hun), Hh, Hn. reflexivity.
Qed.

(** What the state says about [hits]. *)
Local Abbreviation lifecycle_inv t :=
  (1 <= hits t
   /\ match state t with
      | Tentative => hits t = 1 \/ hits t < _n_init t
      | Confirmed => 2 <= hits t /\ _n_init t <= hits t
      | Deleted => True
      end).

Lemma lifecycle_inv_step c t : lifecycle_inv t -> lifecycle_inv (exec (do c) t).
Proof.
  intros [Hh Hs]. unfold exec. destruct c as [kf|kf d|]; cbn [do].
  - rewrite predict_exec. cbn. split; assumption.
  - rewrite update_exec. cbn. split; [lia|].
    destruct (state t); cbn.
    + destruct (Z.geb_spec (hits t + 1) (_n_init t)); cbn; lia.
    + lia.
    + exact I.
  - rewrite mark_missed_exec. cbn. split; [assumption|].
    destruct (state t); cbn; try exact I;
      destruct (time_since_update t >? _max_age t); (exact I || assumption).
Qed.

Lemma lifecycle_inv_run cs t : lifecycle_inv t -> lifecycle_inv (run cs t).
Proof.
  intros H0. induction cs as [|c cs IH] using rev_ind; [exact H0|].
  rewrite run_snoc. apply lifecycle_inv_step. exact IH.
Qed.

(** X8.  After any history of calls on a newly constructed track, [hits]
    is at least 1; a confirmed track has [hits >= 2] and [hits >= n_init];
    a tentative track has never been updated or has [hits < n_init]. *)
Theorem state_bounds_hits cs :
  1 <= hits (run cs t_new)
  /\ match state (run cs t_new) with
     | Tentative => hits (run cs t_new) = 1 \/ hits (run cs t_new) < n_init
     | Confirmed => 2 <= hits (run cs t_new) /\ n_init <= hits (run cs t_new)
     | Deleted => True
     end.
Proof.
  destruct new_fields as (Hs & Hh & _ & _ & Hn & _).
  assert (H0 : lifecycle_inv t_new).
  { rewrite Hs, Hh. split; [lia|left; reflexivity]. }
  pose proof (lifecycle_inv_run cs t_new H0) as H.
  rewrite run_n_init, Hn in H. exact H.
Qed.

(** What a history without [update] leaves alone. *)
Lemma idle_keeps cs t :
  idle cs ->
  hits (run cs t) = hits t
  /\ features (run cs t) = features t
  /\ latest_feature (run cs t) = latest_feature t
  /\ trajectory (run cs t) = trajectory t
  /\ det_class (run cs t) = det_class t.
Proof.
  induction cs as [|c cs IH] using rev_ind; intros Hidle; [repeat split|].
  unfold idle in Hidle. rewrite Forall_app, Forall_singleton in Hidle.
  destruct Hidle as [Hcs Hc]. destruct (IH Hcs) as (<- & <- & <- & <- & <-).
  rewrite run_snoc. unfold exec. destruct c as [kf|kf d|]; cbn [do].
  - rewrite predict_exec. repeat split.
  - discriminate Hc.
  - rewrite mark_missed_exec. repeat split.
Qed.

(** X10.  Calls that are not [update]s leave [det_class], [features],
    [latest_feature], [trajectory] and [hits] as they were; if a [predict]
    is among them, [original_ltwh], [det_conf], [instance_mask] and
    [others] are [None] afterwards, and if none is, these four and the
    filter mean are as they were. *)
Theorem class_sticky_match_data_cleared cs t :
  idle cs ->
  det_class (run cs t) = det_class t
  /\ features (run cs t) = features t
  /\ latest_feature (run cs t) = latest_feature t
  /\ trajectory (run cs t) = trajectory t
  /\ hits (run cs t) = hits t
  /\ (0 < count is_predict cs ->
        original_ltwh (run cs t) = None /\ det_conf (run cs t) = None
        /\ instance_mask (run cs t) = None /\ others (run cs t) = None)
  /\ (count is_predict cs = 0 ->
        original_ltwh (run cs t) = original_ltwh t
        /\ det_conf (run cs t) = det_conf t
        /\ instance_mask (run cs t) = instance_mask t
        /\ others (run cs t) = others t
        /\ mean (run cs t) = mean t).
Proof.
  intros Hidle. destruct (idle_keeps cs t Hidle) as (Hh & Hf & Hl & Ht & Hc).
  repeat (split; [assumption|]). clear Hh Hf Hl Ht Hc.
  induction cs as [|c cs IH] using rev_ind.
  - rewrite count_nil. split; [lia|]. intros _. repeat split.
  - unfold idle in Hidle. rewrite Forall_app, Forall_singleton in Hidle.
    destruct Hidle as [Hcs Hc]. destruct (IH Hcs) as [IHp IH0].
    pose proof (count_nonneg is_predict cs) as Hk.
    rewrite run_snoc, count_snoc. unfold exec.
    destruct c as [kf|kf d|]; cbn [do is_predict].
    + rewrite predict_exec. cbn. split; [intros _; repeat split|lia].
    + discriminate Hc.
    + rewrite mark_missed_exec. cbn. rewrite Z.add_0_r.
      split; [exact IHp|exact IH0].
Qed.

Lemma predicts_idle (kfs : list (kalman_filter.KalmanFilter A Cov)) :
  idle (map Predict kfs : list Call)
  /\ count is_predict (map Predict kfs : list Call) = Z.of_nat (length kfs).
Proof.
  induction kfs as [|kf kfs [IHi IHc]]; [split; [constructor|reflexivity]|].
  cbn [map]. split; [constructor; [reflexivity|exact IHi]|].
  rewrite count_cons, IHc. cbn [is_predict length]. lia.
Qed.

Lemma idle_state_of_predicts (kfs : list (kalman_filter.KalmanFilter A Cov)) t :
  state (run (map Predict kfs) t) = state t.
Proof.
  revert t. induction kfs as [|kf kfs IH]; intros t; [reflexivity|].
  cbn [map]. rewrite run_cons, IH. unfold exec. cbn [do].
  rewrite predict_exec. reflexivity.
Qed.

(** X9.  A matched track that then goes [k] cycles without a match, each
    a [predict], and is marked missed: if the [update] left it confirmed
    it is [Deleted] when [k > max_age] and still [Confirmed] when
    [k <= max_age]; if the [update] left it tentative it is [Deleted]
    whatever [k] is. *)
Theorem deleted_after_max_age_misses kf d
    (kfs : list (kalman_filter.KalmanFilter A Cov)) t :
  state (exec mark_missed (run (map Predict kfs) (exec (update kf d) t)))
  = match state (exec (update kf d) t) with
    | Tentative => Deleted
    | Confirmed =>
        if Z.of_nat (length kfs) >? _max_age t then Deleted else Confirmed
    | Deleted => Deleted
    end.
Proof.
  destruct (predicts_idle kfs) as [Hidle Hcount].
  pose proof (idle_time_since_update _ (exec (update kf d) t) Hidle) as Htsu.
  rewrite Hcount in Htsu.
  pose proof (idle_state_of_predicts kfs (exec (update kf d) t)) as Hst.
  assert (Hmax : _max_age (run (map Predict kfs) (exec (update kf d) t))
                 = _max_age t).
  { clear. induction kfs as [|k kfs IH] using rev_ind.
    - unfold exec. rewrite update_exec. reflexivity.
    - rewrite map_app. cbn [map]. rewrite run_snoc.
      destruct (do_counters (Predict k) (run (map Predict kfs) (exec (update kf d) t)))
        as (_ & _ & -> & _). exact IH. }
  assert (H0 : time_since_update (exec (update kf d) t) = 0)
    by (unfold exec; rewrite update_exec; reflexivity).
  unfold exec at 1. rewrite mark_missed_exec. cbn [snd set_state state].
  rewrite Hst, Htsu, Hmax, H0, Z.add_0_l.
  destruct (state (exec (update kf d) t)); cbn;
    try destruct (Z.of_nat (length kfs) >? _max_age t); reflexivity.
Qed.

(** X12.  After any history of calls on a newly constructed track,
    [latest_feature], which [get_feature] returns, is the last entry of
    [features], and [None] while [features] is empty. *)
Theorem latest_feature_is_last cs :
  get_feature (run cs t_new) = default None (last (features (run cs t_new))).
Proof.
  unfold get_feature.
  induction cs as [|c cs IH] using rev_ind.
  - destruct new_fields as (_ & _ & _ & _ & _ & _ & Hf & Hl & _).
    cbn [run fold_left]. rewrite Hf, Hl. destruct feature; reflexivity.
  - rewrite run_snoc. unfold exec. destruct c as [kf|kf d|]; cbn [do].
    + rewrite predict_exec. exact IH.
    + rewrite update_exec. cbn. rewrite last_snoc. reflexivity.
    + rewrite mark_missed_exec. exact IH.
Qed.

(** X13.  After any history of calls on a newly constructed track,
    whenever the track holds an original box the last point of the
    trajectory is the centre [to_center] computes of it. *)
Theorem trajectory_ends_at_center cs :
  match to_center (run cs t_new) with
  | Ok p => last (get_trajectory (run cs t_new)) = Some p
  | Raise _ => original_ltwh (run cs t_new) = None
  end.
Proof.
  unfold get_trajectory. rewrite to_center_value.
  induction cs as [|c cs IH] using rev_ind.
  - destruct new_fields as (_ & _ & _ & _ & _ & _ & _ & _ & Ho & Ht).
    cbn [run fold_left]. rewrite Ho, Ht. destruct original_ltwh_; reflexivity.
  - rewrite run_snoc. unfold exec. destruct c as [kf|kf d|]; cbn [do].
    + rewrite predict_exec. reflexivity.
    + rewrite update_exec. cbn. apply last_snoc.
    + rewrite mark_missed_exec. exact IH.
Qed.

End HistoryFacts.

(** * Geometry after a match and after a miss, and the velocity *)

Section MoreGeometry.
Context {A Cov Feature Cls Conf Mask Other Id : Type}.
Context `{!Add A, !Subtract A, !Multiply A, !TrueDivide A,
          !FloorDivide A, !Sqrt A, !Mean A, !OfInt A, !OfFloat A}.

Local Abbreviation Track := (Track A Cov Feature Cls Conf Mask Other Id).
Implicit Types (t : Track).
Implicit Types (kf : kalman_filter.KalmanFilter A Cov).
Implicit Types (d : detection.Detection A Feature Cls Conf Mask Other).

(** The box the filter mean [m] stands for. *)
Local Abbreviation box_of_mean m :=
  (Arr4 (i0 (head4 m) .- (i2 (head4 m) .* i3 (head4 m)) ./ of_int 2)
        (i1 (head4 m) .- i3 (head4 m) ./ of_int 2)
        (i2 (head4 m) .* i3 (head4 m))
        (i3 (head4 m))).

(** X11.  In the cycle of a match, [to_ltwh(orig=True)] returns the box of
    the matched detection and [to_ltrb(orig=True)] its corner form, strict
    or not; without [orig] both follow the mean the filter's [update]
    returned.  After a [predict] the original box is gone:
    [to_ltwh(orig=True, orig_strict=True)] is [None], and without
    [orig_strict] it is the box of the predicted mean, as without [orig]. *)
Theorem boxes_after_update_and_predict kf d t (orig_strict : bool) :
  to_ltwh (exec (update kf d) t) true orig_strict = Some (detection.get_ltwh d)
  /\ to_ltrb (exec (update kf d) t) true orig_strict
     = Some (Arr4 (i0 (detection.get_ltwh d)) (i1 (detection.get_ltwh d))
               (i0 (detection.get_ltwh d) .+ i2 (detection.get_ltwh d))
               (i1 (detection.get_ltwh d) .+ i3 (detection.get_ltwh d)))
  /\ to_ltwh (exec (update kf d) t) false orig_strict
     = Some (box_of_mean
               (fst (kalman_filter.update kf (mean t) (covariance t)
                       (detection.to_xyah d))))
  /\ to_ltwh (exec (predict kf) t) true true = None
  /\ to_ltrb (exec (predict kf) t) true true = None
  /\ to_ltwh (exec (predict kf) t) true false
     = Some (box_of_mean
               (fst (kalman_filter.predict kf (mean t) (covariance t))))
  /\ to_ltwh (exec (predict kf) t) false orig_strict
     = to_ltwh (exec (predict kf) t) true false.
Proof.
  unfold exec. rewrite update_exec, predict_exec. repeat split.
Qed.

Lemma lookup_map {X Y : Type} (f : X -> Y) (l : list X) (i : nat) :
  map f l !! i = f <$> (l !! i).
Proof.
  revert i. induction l as [|x l IH]; intros [|i]; cbn; try reflexivity.
  apply IH.
Qed.

Lemma lookup_removelast {X : Type} (l : list X) (i : nat) :
  (S i < length l)%nat -> removelast l !! i = l !! i.
Proof.
  intros Hi. rewrite removelast_firstn_len. apply lookup_take_lt. lia.
Qed.

Lemma length_removelast_pred {X : Type} (l : list X) :
  length (removelast l) = pred (length l).
Proof. rewrite removelast_firstn_len, length_take. lia. Qed.

Lemma length_tail_pred {X : Type} (l : list X) : length (tail l) = pred (length l).
Proof. destruct l; reflexivity. Qed.

(** X14.  With [n >= 2] trajectory points [get_velocity] returns three
    values: [n - 1] magnitudes and [n - 1] directions, one per step, and
    the [np.mean] of the magnitudes.  For the step from point [p] to the
    next point [q] the velocity is [((q - p) * fps)], its magnitude the
    square root of the sum of its squared components, and its direction
    the velocity divided by the magnitude plus [1e-8]. *)
Theorem get_velocity_per_step t (fps : A) :
  (2 <= length (trajectory t))%nat ->
  exists average magnitudes directions,
    get_velocity t fps = (Some average, Some magnitudes, Some directions)
    /\ length magnitudes = pred (length (trajectory t))
    /\ length directions = pred (length (trajectory t))
    /\ average = np_mean magnitudes
    /\ forall (i : nat) (p q : arr2 A),
         trajectory t !! i = Some p ->
         trajectory t !! S i = Some q ->
         let vx := (fst q .- fst p) .* fps in
         let vy := (snd q .- snd p) .* fps in
         let m := np_sqrt (vx .* vx .+ vy .* vy) in
         magnitudes !! i = Some m
         /\ directions !! i
            = Some (vx ./ (m .+ of_float 1e-8%float),
                    vy ./ (m .+ of_float 1e-8%float)).
Proof.
  intros Hlen. unfold get_velocity.
  destruct (Z.ltb_spec (Z.of_nat (length (trajectory t))) 2); [lia|].
  cbv zeta. do 3 eexists. split; [reflexivity|].
  assert (Hv : length (zip_with (arr2_map2 np_subtract) (tail (trajectory t))
                         (removelast (trajectory t)))
               = pred (length (trajectory t)))
    by (rewrite length_zip_with, length_tail_pred, length_removelast_pred; lia).
  split; [rewrite !length_map; exact Hv|].
  split; [rewrite length_zip_with, !length_map, Hv; lia|].
  split; [reflexivity|].
  intros i p q Hp Hq.
  set (vx := (fst q .- fst p) .* fps). set (vy := (snd q .- snd p) .* fps).
  set (m := np_sqrt (vx .* vx .+ vy .* vy)).
  assert (Hstep : map (fun u => arr2_scalar np_multiply u fps)
                    (zip_with (arr2_map2 np_subtract) (tail (trajectory t))
                       (removelast (trajectory t))) !! i = Some (vx, vy)).
  { rewrite lookup_map, lookup_zip_with, lookup_tail, Hq.
    rewrite lookup_removelast by (apply lookup_lt_Some in Hq; lia).
    rewrite Hp. reflexivity. }
  assert (Hm : map (fun v => np_sqrt (fst v .* fst v .+ snd v .* snd v))
                 (map (fun u => arr2_scalar np_multiply u fps)
                    (zip_with (arr2_map2 np_subtract) (tail (trajectory t))
                       (removelast (trajectory t)))) !! i = Some m)
    by (rewrite lookup_map, Hstep; reflexivity).
  split; [exact Hm|].
  rewrite lookup_zip_with, Hstep, Hm. reflexivity.
Qed.

End MoreGeometry.

(** * The geometry queries on stores: repeated calls and short arrays *)

Section BufferEdge.
Context {A Cov Feature Cls Conf Mask Other Id : Type}.
Context `{!Add A, !Subtract A, !Multiply A, !TrueDivide A,
          !FloorDivide A, !OfInt A}.

Local Abbreviation store := (list (list A)).
Local Abbreviation TrackV := (Track A Cov Feature Cls Conf Mask Other Id).
Local Abbreviation v_to_ltwh := (@to_ltwh A Cov Feature Cls Conf Mask Other Id _ _ _ _).
Local Abbreviation v_to_ltrb := (@to_ltrb A Cov Feature Cls Conf Mask Other Id _ _ _ _ _).
Local Abbreviation v_original_ltwh :=
  (@original_ltwh A Cov Feature Cls Conf Mask Other Id).
Import buffers.
Implicit Types (h : store) (v w : ndarray) (self : buffers.Track).

Local Arguments bind : simpl never.
Local Arguments load : simpl never.
Local Arguments alloc : simpl never.
Local Arguments write : simpl never.
Local Arguments copy : simpl never.
Local Arguments getitem : simpl never.
Local Arguments setitem : simpl never.
Local Arguments scalar_op : simpl never.
Local Arguments inplace : simpl never.
Local Arguments elements : simpl never.

(** A view that shows something lies in an allocated buffer, and shows the
    same in every store that has the buffers of [h] unchanged. *)
Lemma elements_unchanged h h' v :
  unchanged h h' -> elements v h <> [] -> elements v h' = elements v h.
Proof.
  intros Hun Hne. unfold elements in *.
  destruct (h !! base v) as [b|] eqn:Hb.
  - rewrite (Hun _ _ Hb). reflexivity.
  - exfalso. apply Hne. cbn. rewrite drop_nil, take_nil. reflexivity.
Qed.

Lemma represents_unchanged h h' self (t : TrackV) :
  unchanged h h' -> represents h self t -> represents h' self t.
Proof.
  intros Hun (Hsz & Hm & Ho). split; [exact Hsz|]. split.
  - rewrite (elements_unchanged h h') by (try rewrite Hm; done). exact Hm.
  - destruct (buffers.original_ltwh self) as [v|], (v_original_ltwh t) as [b|];
      try exact Ho.
    destruct Ho as [Hv Hb]. split; [exact Hv|].
    rewrite (elements_unchanged h h') by (try rewrite Hb; done). exact Hb.
Qed.

Lemma to_ltrb_unchanged h self (orig orig_strict : bool) :
  unchanged h (exec (buffers.to_ltrb self orig orig_strict) h).
Proof.
  apply (keeps_reads_only (buffers.to_ltrb self orig orig_strict) (fun r => r)).
  intros h0. apply keeps_to_ltrb.
Qed.

(** X16.  The queries can be repeated.  On a store that holds an
    8-element mean and a 4-element original box (or none), a [to_ltwh] call
    made after a [to_ltrb] call returns normally the same box as if the
    [to_ltrb] call had not been made, in an array that is not the array
    [to_ltrb] returned; so the corner arithmetic of one call is never seen
    by the next. *)
Theorem to_ltwh_after_to_ltrb h self (t : TrackV)
    (orig orig_strict orig' orig_strict' : bool) :
  represents h self t ->
  exists r,
    returned (buffers.to_ltwh self orig orig_strict)
      (exec (buffers.to_ltrb self orig' orig_strict') h) = Ok r
    /\ (fun a =>
          elements a
            (exec (buffers.to_ltwh self orig orig_strict)
               (exec (buffers.to_ltrb self orig' orig_strict') h))) <$> r
       = list4 <$> v_to_ltwh t orig orig_strict
    /\ forall a a',
         r = Some a ->
         returned (buffers.to_ltrb self orig' orig_strict') h = Ok (Some a') ->
         base a <> base a'.
Proof.
  intros Hrep.
  pose proof (to_ltrb_run h self t orig' orig_strict' Hrep) as Hfirst.
  set (h1 := exec (buffers.to_ltrb self orig' orig_strict') h).
  assert (Hrep1 : represents h1 self t)
    by (eapply represents_unchanged; [apply to_ltrb_unchanged|exact Hrep]).
  pose proof (to_ltwh_run h1 self t orig orig_strict Hrep1) as Hsecond.
  unfold returned, exec in *.
  destruct (v_to_ltwh t orig orig_strict) as [b|].
  - destruct Hsecond as [rest2 Hsecond]. rewrite Hsecond. eexists.
    split; [reflexivity|]. split.
    + cbn. unfold at_end. rewrite elements_later. reflexivity.
    + intros a a' [= <-] Ha'. unfold at_end. cbn. subst h1.
      destruct (v_to_ltrb t orig' orig_strict') as [c|].
      * destruct Hfirst as [rest1 Hfirst]. rewrite Hfirst in Ha' |- *.
        cbn in Ha' |- *. injection Ha' as <-. unfold at_end. cbn.
        rewrite length_app. cbn. lia.
      * rewrite Hfirst in Ha'. discriminate Ha'.
  - rewrite Hsecond. eexists. split; [reflexivity|]. split; [reflexivity|].
    intros a a' Ha. discriminate Ha.
Qed.

(** X17.  A filter mean of fewer than four elements makes the
    filter-derived [to_ltwh] raise [IndexError], at [ret[2]] or at
    [ret[3]]. *)
Theorem to_ltwh_short_mean_raises h self (orig_strict : bool) :
  (length (elements (buffers.mean self) h) < 4)%nat ->
  returned (buffers.to_ltwh self false orig_strict) h = Raise IndexError.
Proof.
  intros Hlen. unfold returned, buffers.to_ltwh.
  assert (Hcopy : (length (elements (slice_to (buffers.mean self) 4) h) < 4)%nat).
  { revert Hlen. unfold elements, slice_to. cbn [base offset size].
    rewrite !length_take. lia. }
  unfold bind at 1. rewrite copy_old. cbn.
  destruct (elements (slice_to (buffers.mean self) 4) h)
    as [|x0 [|x1 [|x2 [|x3 l]]]] eqn:Hd; cbn in Hcopy; try lia.
  - unfold bind at 1. rewrite getitem_run. reflexivity.
  - unfold bind at 1. rewrite getitem_run. reflexivity.
  - unfold bind at 1. rewrite getitem_run. reflexivity.
  - unfold bind at 1. rewrite getitem_run. cbn.
    unfold bind at 1. rewrite getitem_run. reflexivity.
Qed.

End BufferEdge.

(** * The further properties on the sample objects *)

Section MoreSamples.
Import float64 integer sample.

Local Abbreviation ZCall := (Call Z unit (list Z) nat Z unit unit).

Lemma time_since_update_counts_predicts_witness :
  idle ([Predict still; MarkMissed; Predict still] : list ZCall)
  /\ time_since_update
       (run ([Predict still; Predict still]
             ++ Update still d_feature
                :: [Predict still; MarkMissed; Predict still]) t_seen) = 2.
Proof.
  assert (Hidle : idle ([Predict still; MarkMissed; Predict still] : list ZCall))
    by (repeat constructor).
  split; [exact Hidle|].
  exact (proj1 (time_since_update_counts_predicts
                  [Predict still; Predict still] still d_feature _ t_seen Hidle)).
Defined.

Lemma unmissed_track_state_witness :
  unmissed [Update still d_feature; Predict still; Update still d_nofeature]
  /\ state (run [Update still d_feature; Predict still;
                 Update still d_nofeature] t_seen) = Confirmed.
Proof.
  assert (Hun : unmissed [Update still d_feature; Predict still;
                          Update still d_nofeature])
    by (repeat constructor).
  split; [exact Hun|].
  exact (unmissed_track_state zmean tt 1 3 2 (Some [1; 2; 3])
           (Some (Arr4 10 20 5 7)) None None None None _ Hun).
Defined.

Lemma class_sticky_match_data_cleared_witness :
  idle ([Predict still; MarkMissed; Predict still] : list ZCall)
  /\ det_class (run [Predict still; MarkMissed; Predict still]
                  (exec (update still d_feature) t_seen)) = Some 0%nat
  /\ det_conf (run [Predict still; MarkMissed; Predict still]
                 (exec (update still d_feature) t_seen)) = None.
Proof.
  assert (Hidle : idle ([Predict still; MarkMissed; Predict still] : list ZCall))
    by (repeat constructor).
  split; [exact Hidle|].
  destruct (class_sticky_match_data_cleared _
              (exec (update still d_feature) t_seen) Hidle)
    as (Hc & _ & _ & _ & _ & Hp & _).
  split; [exact Hc|]. apply Hp. reflexivity.
Defined.

Lemma get_velocity_per_step_witness :
  (2 <= length (trajectory t_three))%nat
  /\ exists average magnitudes directions,
       get_velocity t_three fps_default
       = (Some average, Some magnitudes, Some directions)
       /\ length magnitudes = 2%nat /\ length directions = 2%nat.
Proof.
  assert (Hlen : (2 <= length (trajectory t_three))%nat) by (cbn; lia).
  split; [exact Hlen|].
  destruct (get_velocity_per_step t_three fps_default Hlen)
    as (avg & mags & dirs & Hv & Hm & Hd & _).
  exists avg, mags, dirs. split; [exact Hv|]. split; [exact Hm|exact Hd].
Defined.

Lemma center_refines_witness :
  represents h_int self_two t_seen
  /\ exists a,
       returned (buffers.to_center self_two) h_int = Ok a
       /\ buffers.elements a (exec (buffers.to_center self_two) h_int) = [12; 23].
Proof.
  assert (Hrep : represents h_int self_two t_seen) by (repeat split; reflexivity).
  split; [exact Hrep|].
  exact (center_refines h_int self_two t_seen Hrep).
Defined.

Lemma to_ltwh_after_to_ltrb_witness :
  represents h_two self_two t_whole
  /\ exists r,
       returned (buffers.to_ltwh self_two true false)
         (exec (buffers.to_ltrb self_two true false) h_two) = Ok r
       /\ (fun a =>
             buffers.elements a
               (exec (buffers.to_ltwh self_two true false)
                  (exec (buffers.to_ltrb self_two true false) h_two))) <$> r
          = Some [1; 2; 3; 4]%float.
Proof.
  assert (Hrep : represents h_two self_two t_whole) by (repeat split; reflexivity).
  split; [exact Hrep|].
  destruct (to_ltwh_after_to_ltrb h_two self_two t_whole true false true false Hrep)
    as (r & Hr & He & _).
  exists r. split; [exact Hr|exact He].
Defined.

Lemma to_ltwh_short_mean_raises_witness :
  (length (buffers.elements (buffers.mean self_short) h_short) < 4)%nat
  /\ returned (buffers.to_ltwh self_short false false) h_short = Raise IndexError.
Proof.
  assert (Hlen : (length (buffers.elements (buffers.mean self_short) h_short) < 4)%nat)
    by (cbn; lia).
  split; [exact Hlen|].
  exact (to_ltwh_short_mean_raises h_short self_short false Hlen).
Defined.

(** The second of the scenarios a track goes through: confirmed, then
    three cycles without a match with [max_age = 2]; the track survives
    the first two misses and is deleted by the third. *)
Example deleted_on_third_miss :
  let t := run [Update still d_feature; Update still d_feature] t_seen in
  state t = Confirmed
  /\ state (run [Predict still; MarkMissed] t) = Confirmed
  /\ state (run [Predict still; MarkMissed; Predict still; MarkMissed] t)
     = Confirmed
  /\ state (run [Predict still; MarkMissed; Predict still; MarkMissed;
                 Predict still; MarkMissed] t) = Deleted.
Proof. repeat split; reflexivity. Qed.

End MoreSamples.
